(** * patchwire: the per-connection protocol of [src/lib/client.js]

    A shallow embedding of the [Client] class (framing, digest splitting,
    integrity validation with a bounded forward search, dispatch, tick-mode
    batching, teardown) and of [src/lib/getEnv.js], followed by the
    properties of the specification that were checked against it.

    Conventions of the embedding.
    - A JavaScript string is the list of its UTF-16 code units ([JsString]).
    - A JavaScript number that the code uses as a counter is a double with
      an integer value, held as that integer in [Z]. Its sums are rounded
      as the platform rounds them ([Double.add]: exact up to 2^53, to the
      nearest double beyond) and it is printed as [Number::toString] prints
      it ([Double.toString]).
    - The platform functions the code calls ([crypto]'s SHA-1, [JSON.parse],
      [JSON.stringify], the [String.prototype] methods) are written out from
      their standards, so that every definition can be evaluated.
    - The socket, the console and the registered handlers are outside the
      repository: a call to one of them is recorded as an [Event] in a trace.
      A handler is taken to return, and to leave the connection alone.
    - An exception is an outcome of its own ([Thrown]), carrying the state
      reached when it was raised.
    - Objects are values: two calls that are given the same object are
      given equal values, and nothing is shared between them. The one
      place where the class writes on an object it was handed is
      [send(command, data)], which sets [data.command]: the embedding
      queues or sends the value so obtained, and the object of the caller
      is outside it. What is proved of queued commands is proved for
      calls that leave [data] out, where nothing is written. *)

From Stdlib Require Import ZArith NArith Ascii String List Lia.
From stdpp Require Import base decidable option list gmap.
Import ListNotations.

Set Warnings "-register-all".
Local Open Scope N_scope.

(** ** JavaScript strings *)

Abbreviation JsString := (list N).

Module Js.

(** The code units of an ASCII literal of the source. *)
Definition lit (s : string) : JsString :=
  List.map N_of_ascii (list_ascii_of_string s).

(** The literal between quotation marks. *)
Definition quoted (s : string) : JsString := [34] ++ lit s ++ [34].

Definition eqb (a b : JsString) : bool := bool_decide (a = b).

(** [s.startsWith(p)] *)
Fixpoint starts_with (p s : JsString) : bool :=
  match p, s with
  | [], _ => true
  | _ :: _, [] => false
  | x :: p', y :: s' => N.eqb x y && starts_with p' s'
  end.

(** The position of the first occurrence of [p] in [s], if there is one. *)
Fixpoint find (p s : JsString) : option nat :=
  if starts_with p s then Some 0%nat
  else match s with
       | [] => None
       | _ :: s' => option_map S (find p s')
       end.

(** [s.indexOf(p)] *)
Definition indexOf (s p : JsString) : Z :=
  match find p s with
  | Some i => Z.of_nat i
  | None => (-1)%Z
  end.

(** [ToIntegerOrInfinity] followed by the clamping of a relative index into
    [0 .. len], as [slice] and [substr] do for their start (and [slice] for
    its end). *)
Definition clamp_index (len : nat) (i : Z) : nat :=
  if (i <? 0)%Z then Z.to_nat (Z.max (Z.of_nat len + i) 0)
  else Nat.min (Z.to_nat i) len.

(** [s.slice(start, end)]; [end] is [None] when the argument is omitted. *)
Definition slice (s : JsString) (start : Z) (stop : option Z) : JsString :=
  let len := List.length s in
  let from := clamp_index len start in
  let to := match stop with
            | None => len
            | Some e => clamp_index len e
            end in
  take (to - from)%nat (drop from s).

(** [s.substr(start, length)] *)
Definition substr (s : JsString) (start length : Z) : JsString :=
  let size := List.length s in
  let from := clamp_index size start in
  take (Z.to_nat (Z.max length 0)) (drop from s).

(** White space and line terminators, the code units [trim] removes. *)
Definition is_white_space (c : N) : bool :=
  ((9 <=? c) && (c <=? 13)) || (c =? 32) || (c =? 160) || (c =? 5760)
  || ((8192 <=? c) && (c <=? 8202)) || (c =? 8232) || (c =? 8233)
  || (c =? 8239) || (c =? 8287) || (c =? 12288) || (c =? 65279).

Fixpoint trim_start (s : JsString) : JsString :=
  match s with
  | c :: s' => if is_white_space c then trim_start s' else s
  | [] => []
  end.

(** [s.trim()] *)
Definition trim (s : JsString) : JsString :=
  rev (trim_start (rev (trim_start s))).

(** [s.replace(p, '')] for a string pattern [p]: the first occurrence of
    [p], and only that one, is removed. *)
Definition replace_with_empty (s p : JsString) : JsString :=
  match find p s with
  | Some i => take i s ++ drop (i + List.length p)%nat s
  | None => s
  end.

(** Decimal digits of a positive number, least significant first;
    [fuel] bounds the number of digits. *)
Fixpoint digits_rev (fuel : nat) (n : N) : list N :=
  match fuel with
  | O => []
  | S fuel' =>
      if n <? 10 then [48 + n]
      else (48 + n mod 10) :: digits_rev fuel' (n / 10)
  end.

Definition decimal_N (n : N) : JsString :=
  rev (digits_rev (S (N.to_nat (N.log2 n))) n).

(** The decimal string of an integer, every digit of it. *)
Definition decimal (n : Z) : JsString :=
  if (n <? 0)%Z then 45 :: decimal_N (Z.to_N (- n)) else decimal_N (Z.to_N n).

(** [Buffer.from(s, 'utf8')]: the UTF-8 bytes of a string; a surrogate
    pair is one code point, a surrogate on its own becomes U+FFFD. *)
Definition utf8_of_code_point (c : N) : list N :=
  if c <? 128 then [c]
  else if c <? 2048 then [192 + c / 64; 128 + c mod 64]
  else if c <? 65536 then [224 + c / 4096; 128 + (c / 64) mod 64; 128 + c mod 64]
  else [240 + c / 262144; 128 + (c / 4096) mod 64; 128 + (c / 64) mod 64;
        128 + c mod 64].

Definition is_high_surrogate (c : N) : bool := (55296 <=? c) && (c <=? 56319).
Definition is_low_surrogate (c : N) : bool := (56320 <=? c) && (c <=? 57343).

Fixpoint utf8 (s : JsString) : list N :=
  match s with
  | [] => []
  | c :: rest =>
      if is_high_surrogate c then
        match rest with
        | d :: rest' =>
            if is_low_surrogate d
            then utf8_of_code_point (65536 + (c - 55296) * 1024 + (d - 56320))
                   ++ utf8 rest'
            else [239; 191; 189] ++ utf8 rest
        | [] => [239; 191; 189]
        end
      else if is_low_surrogate c then [239; 191; 189] ++ utf8 rest
      else utf8_of_code_point c ++ utf8 rest
  end.

End Js.

(** ** SHA-1 (FIPS 180-4), as [crypto.createHash('sha1')] computes it *)

Module Sha1.

Definition mask32 : N := 4294967295.
Definition add32 (x y : N) : N := N.land (x + y) mask32.
Definition rotl (n x : N) : N :=
  N.land (N.lor (N.shiftl x n) (N.shiftr x (32 - n))) mask32.

(** Padding: the bit 1, zeros up to 56 modulo 64 bytes, then the length in
    bits on 8 bytes, most significant first. *)
Definition be_bytes (count : nat) (n : N) : list N :=
  List.map (fun i => N.land (N.shiftr n (8 * N.of_nat i)) 255)
           (rev (seq 0 count)).

Definition pad (msg : list N) : list N :=
  let len := List.length msg in
  let zeros := ((119 - len mod 64) mod 64)%nat in
  msg ++ [128] ++ repeat 0 zeros ++ be_bytes 8 (8 * N.of_nat len).

Fixpoint words (bytes : list N) : list N :=
  match bytes with
  | b0 :: b1 :: b2 :: b3 :: rest =>
      (b0 * 16777216 + b1 * 65536 + b2 * 256 + b3) :: words rest
  | _ => []
  end.

(** The message schedule, latest word first: W(t) is made of W(t-3),
    W(t-8), W(t-14) and W(t-16). *)
Fixpoint schedule (count : nat) (ws : list N) : list N :=
  match count with
  | O => ws
  | S count' =>
      let w := rotl 1 (N.lxor (N.lxor (nth 2 ws 0) (nth 7 ws 0))
                              (N.lxor (nth 13 ws 0) (nth 15 ws 0))) in
      schedule count' (w :: ws)
  end.

Definition f (t : nat) (b c d : N) : N :=
  if (t <? 20)%nat then N.lor (N.land b c) (N.ldiff d b)
  else if (t <? 40)%nat then N.lxor (N.lxor b c) d
  else if (t <? 60)%nat then N.lor (N.lor (N.land b c) (N.land b d)) (N.land c d)
  else N.lxor (N.lxor b c) d.

Definition K (t : nat) : N :=
  if (t <? 20)%nat then 1518500249
  else if (t <? 40)%nat then 1859775393
  else if (t <? 60)%nat then 2400959708
  else 3395469782.

Definition H : Type := (N * N * N * N * N)%type.

Definition H0 : H := (1732584193, 4023233417, 2562383102, 271733878, 3285377520).

Fixpoint rounds (t : nat) (ws : list N) (h : H) : H :=
  match ws with
  | [] => h
  | w :: ws' =>
      let '(a, b, c, d, e) := h in
      let temp := add32 (add32 (add32 (add32 (rotl 5 a) (f t b c d)) e) (K t)) w in
      rounds (S t) ws' (temp, a, rotl 30 b, c, d)
  end.

Definition compress (h : H) (block : list N) : H :=
  let ws := rev (schedule 64 (rev (words block))) in
  let '(a, b, c, d, e) := rounds 0 ws h in
  let '(h0, h1, h2, h3, h4) := h in
  (add32 h0 a, add32 h1 b, add32 h2 c, add32 h3 d, add32 h4 e).

Fixpoint blocks (count : nat) (bytes : list N) (h : H) : H :=
  match count with
  | O => h
  | S count' => blocks count' (drop 64 bytes) (compress h (take 64 bytes))
  end.

Definition digest (msg : list N) : H :=
  let padded := pad msg in
  blocks (List.length padded / 64) padded H0.

(** [.digest('hex')]: 40 lower-case hexadecimal digits. *)
Definition hex_digit (n : N) : N := if n <? 10 then 48 + n else 87 + n.

Definition hex8 (w : N) : JsString :=
  List.map (fun i => hex_digit (N.land (N.shiftr w (4 * N.of_nat i)) 15))
           (rev (seq 0 8)).

Definition hex (h : H) : JsString :=
  let '(h0, h1, h2, h3, h4) := h in
  hex8 h0 ++ hex8 h1 ++ hex8 h2 ++ hex8 h3 ++ hex8 h4.

End Sha1.

(** [crypto.createHash('sha1').update(Buffer.from(s, 'utf8')).digest('hex')] *)
Definition sha1_hex (s : JsString) : JsString :=
  Sha1.hex (Sha1.digest (Js.utf8 s)).

(** ** JSON values, [JSON.stringify] and [JSON.parse] *)

(** A number is kept as the decimal [m * 10^e] it was written as; the
    rounding to a double is not part of the embedding. An object lists its
    properties in the order they were written (the keys that are array
    indices, which JavaScript enumerates first, are left where they
    are). *)
Inductive Json : Type :=
| JNull
| JBool (b : bool)
| JNum (m e : Z)
| JStr (s : JsString)
| JArr (items : list Json)
| JObj (fields : list (JsString * Json)).

Module JSON.

(** *** Objects *)

(** [o[k]] for an object written as its list of properties; [None] is
    [undefined]. *)
Fixpoint lookup_field (k : JsString) (fields : list (JsString * Json))
  : option Json :=
  match fields with
  | [] => None
  | (k', v) :: rest => if Js.eqb k k' then Some v else lookup_field k rest
  end.

(** [o[k] = v]: an existing property keeps its place, a new one is added
    at the end. *)
Fixpoint set_field (k : JsString) (v : Json) (fields : list (JsString * Json))
  : list (JsString * Json) :=
  match fields with
  | [] => [(k, v)]
  | (k', v') :: rest =>
      if Js.eqb k k' then (k, v) :: rest else (k', v') :: set_field k v rest
  end.

(** [ToBoolean]; [None] is [undefined]. *)
Definition truthy (v : option Json) : bool :=
  match v with
  | None => false
  | Some JNull => false
  | Some (JBool b) => b
  | Some (JNum m _) => negb (m =? 0)%Z
  | Some (JStr s) => match s with [] => false | _ => true end
  | Some (JArr _) => true
  | Some (JObj _) => true
  end.

(** *** [JSON.stringify] *)

Definition hex4 (c : N) : JsString :=
  List.map (fun i => Sha1.hex_digit (N.land (N.shiftr c (4 * N.of_nat i)) 15))
           (rev (seq 0 4)).

(** [\uXXXX] *)
Definition unicode_escape (c : N) : JsString := [92; 117] ++ hex4 c.

(** The characters of a quoted string: the two-character escapes, [\u00XX]
    for the other control characters and for a surrogate on its own. *)
Fixpoint quote_chars (s : JsString) : JsString :=
  match s with
  | [] => []
  | c :: rest =>
      if c =? 8 then [92; 98] ++ quote_chars rest
      else if c =? 9 then [92; 116] ++ quote_chars rest
      else if c =? 10 then [92; 110] ++ quote_chars rest
      else if c =? 12 then [92; 102] ++ quote_chars rest
      else if c =? 13 then [92; 114] ++ quote_chars rest
      else if c =? 34 then [92; 34] ++ quote_chars rest
      else if c =? 92 then [92; 92] ++ quote_chars rest
      else if c <? 32 then unicode_escape c ++ quote_chars rest
      else if Js.is_high_surrogate c then
        match rest with
        | d :: rest' =>
            if Js.is_low_surrogate d then c :: d :: quote_chars rest'
            else unicode_escape c ++ quote_chars rest
        | [] => unicode_escape c
        end
      else if Js.is_low_surrogate c then unicode_escape c ++ quote_chars rest
      else c :: quote_chars rest
  end.

Definition quote (s : JsString) : JsString := [34] ++ quote_chars s ++ [34].

Fixpoint drop_zeros (ds : JsString) : JsString :=
  match ds with
  | c :: ds' => if c =? 48 then drop_zeros ds' else ds
  | [] => []
  end.

(** The digits without the zeros at their end. *)
Definition strip_zeros (ds : JsString) : JsString := rev (drop_zeros (rev ds)).

(** [Number::toString] on the decimal [m * 10^e]: [ds] are the [k]
    significant digits and [n] places the decimal point after the [n]-th. *)
Definition number_to_string (m e : Z) : JsString :=
  if (m =? 0)%Z then [48]
  else
    let all := Js.decimal_N (Z.to_N (Z.abs m)) in
    let ds := strip_zeros all in
    let k := Z.of_nat (List.length ds) in
    let n := (Z.of_nat (List.length all) + e)%Z in
    let sign := if (m <? 0)%Z then [45] else [] in
    sign ++
    (if (k <=? n)%Z && (n <=? 21)%Z then ds ++ repeat 48 (Z.to_nat (n - k))
     else if (0 <? n)%Z && (n <=? 21)%Z then
       take (Z.to_nat n) ds ++ [46] ++ drop (Z.to_nat n) ds
     else if (-6 <? n)%Z && (n <=? 0)%Z then
       [48; 46] ++ repeat 48 (Z.to_nat (- n)) ++ ds
     else
       let ex := (n - 1)%Z in
       let tail := [101] ++ (if (ex <? 0)%Z then [45] else [43])
                         ++ Js.decimal_N (Z.to_N (Z.abs ex)) in
       match ds with
       | [d] => [d] ++ tail
       | d :: more => [d; 46] ++ more ++ tail
       | [] => tail
       end).

Definition join_comma (parts : list JsString) : JsString :=
  match parts with
  | [] => []
  | p :: rest => p ++ List.concat (List.map (fun q => 44 :: q) rest)
  end.

(** [JSON.stringify(v)], without indentation. *)
Fixpoint stringify (v : Json) : JsString :=
  match v with
  | JNull => Js.lit "null"
  | JBool true => Js.lit "true"
  | JBool false => Js.lit "false"
  | JNum m e => number_to_string m e
  | JStr s => quote s
  | JArr items => [91] ++ join_comma (List.map stringify items) ++ [93]
  | JObj fields =>
      [123] ++ join_comma
                 (List.map (fun kv => quote (fst kv) ++ [58] ++ stringify (snd kv))
                           fields)
            ++ [125]
  end.

(** *** [JSON.parse] *)

(** The result of a parser on a prefix of its input: a value and the rest
    of the input, a syntax error, or not enough recursion depth. *)
Inductive Parsed (A : Type) : Type :=
| Ok (a : A) (rest : JsString)
| Bad
| Starved.
Arguments Ok {A} a rest.
Arguments Bad {A}.
Arguments Starved {A}.

Definition is_ws (c : N) : bool :=
  (c =? 32) || (c =? 9) || (c =? 10) || (c =? 13).

Definition is_digit (c : N) : bool := (48 <=? c) && (c <=? 57).

Fixpoint skip_ws (s : JsString) : JsString :=
  match s with
  | c :: s' => if is_ws c then skip_ws s' else s
  | [] => []
  end.

Definition hex_value (c : N) : option N :=
  if is_digit c then Some (c - 48)
  else if (97 <=? c) && (c <=? 102) then Some (c - 87)
  else if (65 <=? c) && (c <=? 70) then Some (c - 55)
  else None.

Definition hex4_value (a b c d : N) : option N :=
  match hex_value a, hex_value b, hex_value c, hex_value d with
  | Some x, Some y, Some z, Some w => Some (x * 4096 + y * 256 + z * 16 + w)
  | _, _, _, _ => None
  end.

(** The two-character escapes: the character after the backslash and the
    code unit it stands for. *)
Definition simple_escape (c : N) : option N :=
  if c =? 34 then Some 34       (* quotation mark *)
  else if c =? 92 then Some 92  (* backslash *)
  else if c =? 47 then Some 47  (* slash *)
  else if c =? 98 then Some 8   (* b: backspace *)
  else if c =? 102 then Some 12 (* f: form feed *)
  else if c =? 110 then Some 10 (* n: line feed *)
  else if c =? 114 then Some 13 (* r: carriage return *)
  else if c =? 116 then Some 9  (* t: tab *)
  else None.

(** A string after its opening quote, up to and including the closing one. *)
Fixpoint parse_string_body (acc : JsString) (s : JsString) : Parsed JsString :=
  match s with
  | [] => Bad
  | c :: s1 =>
      if c =? 34 then Ok (rev acc) s1
      else if c <? 32 then Bad
      else if c =? 92 then
        match s1 with
        | e :: s2 =>
            if e =? 117 then
              match s2 with
              | h1 :: h2 :: h3 :: h4 :: s3 =>
                  match hex4_value h1 h2 h3 h4 with
                  | Some u => parse_string_body (u :: acc) s3
                  | None => Bad
                  end
              | _ => Bad
              end
            else
              match simple_escape e with
              | Some u => parse_string_body (u :: acc) s2
              | None => Bad
              end
        | [] => Bad
        end
      else parse_string_body (c :: acc) s1
  end.

Fixpoint span_digits (s : JsString) : JsString * JsString :=
  match s with
  | c :: s' =>
      if is_digit c
      then let '(ds, rest) := span_digits s' in (c :: ds, rest)
      else ([], s)
  | [] => ([], [])
  end.

Definition digits_value (ds : JsString) : Z :=
  fold_left (fun acc c => (acc * 10 + Z.of_N (c - 48))%Z) ds 0%Z.

(** The decimal [m * 10^e] without trailing zeros in [m]; zero is [0, 0]. *)
Fixpoint normalize (fuel : nat) (m e : Z) : Z * Z :=
  match fuel with
  | O => (m, e)
  | S fuel' =>
      if (m =? 0)%Z then (0%Z, 0%Z)
      else if (m mod 10 =? 0)%Z then normalize fuel' (m / 10)%Z (e + 1)%Z
      else (m, e)
  end.

Definition number (negative : bool) (int frac : JsString) (ex : Z) : Json :=
  let m := digits_value (int ++ frac) in
  let '(m', e') := normalize (S (List.length (int ++ frac)))
                             (if negative then (- m)%Z else m)
                             (ex - Z.of_nat (List.length frac))%Z in
  JNum m' e'.

(** The optional exponent part: [e] or [E], an optional sign, digits. *)
Definition parse_exponent (s : JsString) : Parsed Z :=
  match s with
  | c :: s1 =>
      if (c =? 101) || (c =? 69) then
        let '(negative, s2) :=
          match s1 with
          | d :: s2 => if d =? 45 then (true, s2)
                       else if d =? 43 then (false, s2) else (false, s1)
          | [] => (false, s1)
          end in
        match span_digits s2 with
        | ([], _) => Bad
        | (ds, rest) =>
            Ok (if negative then (- digits_value ds)%Z else digits_value ds) rest
        end
      else Ok 0%Z s
  | [] => Ok 0%Z s
  end.

(** The optional fraction part: a point followed by digits. *)
Definition parse_fraction (s : JsString) : Parsed JsString :=
  match s with
  | c :: s1 =>
      if c =? 46 then
        match span_digits s1 with
        | ([], _) => Bad
        | (ds, rest) => Ok ds rest
        end
      else Ok [] s
  | [] => Ok [] s
  end.

(** A number: an optional minus, an integer part without a leading zero
    (unless it is the single digit 0), a fraction, an exponent. *)
Definition parse_number (s : JsString) : Parsed Json :=
  let '(negative, s1) :=
    match s with
    | c :: s' => if c =? 45 then (true, s') else (false, s)
    | [] => (false, s)
    end in
  match span_digits s1 with
  | ([], _) => Bad
  | (int, s2) =>
      let leading_zero :=
        match int with
        | d :: _ :: _ => d =? 48
        | _ => false
        end in
      if leading_zero then Bad
      else
        match parse_fraction s2 with
        | Ok frac s3 =>
            match parse_exponent s3 with
            | Ok ex s4 => Ok (number negative int frac ex) s4
            | Bad => Bad
            | Starved => Starved
            end
        | Bad => Bad
        | Starved => Starved
        end
  end.

Definition parse_literal (word : string) (v : Json) (s : JsString) : Parsed Json :=
  if Js.starts_with (Js.lit word) s
  then Ok v (drop (String.length word) s)
  else Bad.

(** A value, the elements of an array after its opening bracket and the
    members of an object after its opening brace. [fuel] bounds the depth
    of the calls. *)
Fixpoint parse_value (fuel : nat) (s : JsString) : Parsed Json :=
  match fuel with
  | O => Starved
  | S fuel' =>
      match skip_ws s with
      | [] => Bad
      | c :: s1 =>
          if c =? 123 then
            match skip_ws s1 with
            | d :: s2 =>
                if d =? 125 then Ok (JObj []) s2 else parse_members fuel' [] s1
            | [] => Bad
            end
          else if c =? 91 then
            match skip_ws s1 with
            | d :: s2 =>
                if d =? 93 then Ok (JArr []) s2 else parse_elements fuel' [] s1
            | [] => Bad
            end
          else if c =? 34 then
            match parse_string_body [] s1 with
            | Ok str rest => Ok (JStr str) rest
            | Bad => Bad
            | Starved => Starved
            end
          else if c =? 116 then parse_literal "true" (JBool true) (c :: s1)
          else if c =? 102 then parse_literal "false" (JBool false) (c :: s1)
          else if c =? 110 then parse_literal "null" JNull (c :: s1)
          else parse_number (c :: s1)
      end
  end

with parse_elements (fuel : nat) (acc : list Json) (s : JsString) : Parsed Json :=
  match fuel with
  | O => Starved
  | S fuel' =>
      match parse_value fuel' s with
      | Ok v s1 =>
          match skip_ws s1 with
          | c :: s2 =>
              if c =? 44 then parse_elements fuel' (v :: acc) s2
              else if c =? 93 then Ok (JArr (rev (v :: acc))) s2
              else Bad
          | [] => Bad
          end
      | Bad => Bad
      | Starved => Starved
      end
  end

with parse_members (fuel : nat) (acc : list (JsString * Json)) (s : JsString)
  : Parsed Json :=
  match fuel with
  | O => Starved
  | S fuel' =>
      match skip_ws s with
      | q :: s1 =>
          if q =? 34 then
            match parse_string_body [] s1 with
            | Ok k s2 =>
                match skip_ws s2 with
                | colon :: s3 =>
                    if colon =? 58 then
                      match parse_value fuel' s3 with
                      | Ok v s4 =>
                          match skip_ws s4 with
                          | c :: s5 =>
                              if c =? 44
                              then parse_members fuel' (set_field k v acc) s5
                              else if c =? 125
                              then Ok (JObj (set_field k v acc)) s5
                              else Bad
                          | [] => Bad
                          end
                      | Bad => Bad
                      | Starved => Starved
                      end
                    else Bad
                | [] => Bad
                end
            | Bad => Bad
            | Starved => Starved
            end
          else Bad
      | [] => Bad
      end
  end.

(** [JSON.parse(s)]; [None] when it throws a [SyntaxError]. One value,
    with white space around it and nothing else. *)
Definition parse (s : JsString) : option Json :=
  match parse_value (2 * List.length s + 2) s with
  | Ok v rest => match skip_ws rest with [] => Some v | _ => None end
  | Bad => None
  | Starved => None
  end.

End JSON.

(** ** JavaScript numbers with an integer value

    The counter of a connection starts at 0 and is only ever added to, so
    it is a double whose value is an integer. Such a number is held as its
    value in [Z]; every integer up to 2^53 in size is one, and beyond that
    the doubles are the multiples of a power of two with 53 significant
    bits. Infinity (from 2^1024 on) is not part of the embedding. *)

Module Double.

Local Open Scope Z_scope.

(** The distance between the doubles of the size of [a >= 0]. *)
Definition ulp (a : Z) : Z := 2 ^ Z.max 0 (Z.log2 a - 52).

(** The multiple of [u] nearest to [a >= 0]; half way between two, the
    even multiple. *)
Definition nearest (a u : Z) : Z :=
  let q := a / u in
  let r := a mod u in
  if 2 * r <? u then q * u
  else if u <? 2 * r then (q + 1) * u
  else if Z.even q then q * u else (q + 1) * u.

(** The double nearest to an integer (round to nearest, ties to even). *)
Definition round (x : Z) : Z :=
  Z.sgn x * nearest (Z.abs x) (ulp (Z.abs x)).

Definition is_double (x : Z) : bool := round x =? x.

(** [a + b] on numbers: the exact sum, rounded. An integer that is no
    double is the value of no number; the sum is left exact on it. *)
Definition add (a b : Z) : Z :=
  if is_double a then round (a + b) else a + b.

(** The search of [Number::toString] for the decimal with the fewest
    digits that reads back as the double [x > 0]: [best] does with a
    multiple of [p / 10]; the multiples of [p] on either side of [x] are
    tried, the closer one winning, and of two as close the one with the
    even last digit. *)
Fixpoint shortest_from (fuel : nat) (x p best : Z) : Z :=
  match fuel with
  | O => best
  | S fuel' =>
      let lo := x / p * p in
      let hi := lo + p in
      let pick :=
        match round lo =? x, round hi =? x with
        | true, true =>
            if x - lo <? hi - x then Some lo
            else if hi - x <? x - lo then Some hi
            else if Z.even (x / p) then Some lo else Some hi
        | true, false => Some lo
        | false, true => Some hi
        | false, false => None
        end in
      match pick with
      | Some v => shortest_from fuel' x (10 * p) v
      | None => best
      end
  end.

(** The integer [Number::toString] prints for a double: the double
    itself up to 2^53, where every integer is a double. *)
Definition shortest (x : Z) : Z :=
  let a := Z.abs x in
  if a <? 2 ^ 53 then x
  else Z.sgn x * shortest_from (S (Z.to_nat (Z.log2 a))) a 10 a.

(** [x.toString()]: all the digits below 10^21, and the exponent
    notation from there on. *)
Definition toString (x : Z) : JsString :=
  let v := shortest x in
  if Z.abs v <? 10 ^ 21 then Js.decimal v else JSON.number_to_string v 0.

End Double.

(** ** The world around a connection *)

Definition SocketId : Type := nat.
Definition HandlerId : Type := nat.

(** What [socket.on] registers: the data listener of the constructor, or
    a handler of the application. *)
Inductive Listener : Type :=
| DataListener
| Handler (h : HandlerId).

(** The calls that leave the class, in the order they are made. *)
Inductive Event : Type :=
| SocketOn (sock : SocketId) (eventName : JsString) (l : Listener)
| SocketWrite (sock : SocketId) (payload : JsString)
| SocketDestroy (sock : SocketId)
| HandlerCall (h : HandlerId) (arg : Json)
| ConsoleError (args : list JsString)
| ConsoleInfo (args : list JsString).

Inductive JsError : Type :=
| ReferenceError
| TypeError
| Error (message : JsString).

(** A [Buffer], given by the text [toString('utf8')] decodes it to. *)
Record Buffer : Type := { toString_utf8 : JsString }.

(** What the module finds around it: [process.env], and what the free
    identifier [client] of [destroy] resolves to. No declaration of the
    repository binds it ([None]); a global of that name holds an object
    without a socket ([Some None]) or one whose [socket] is a given
    transport. *)
Record Env : Type := {
  process_env : gmap JsString JsString;
  global_client : option (option SocketId)
}.

(** ** [src/lib/getEnv.js] *)

(** [getenv(name, defaultValue)]; [None] is [undefined]. *)
Definition getenv (env : Env) (name : JsString) (defaultValue : option JsString)
  : JsError + option JsString :=
  let value := process_env env !! name in
  match value, defaultValue with
  | None, None =>
      inl (Error (Js.lit "Value for environment variable " ++ name
                    ++ Js.lit " required "))
  | _, _ =>
      inr (match value with
           | Some (_ :: _) => value
           | _ => defaultValue
           end)
  end.

(** [ToString] of a string or [undefined]. *)
Definition to_string (v : option JsString) : JsString :=
  match v with
  | Some s => s
  | None => Js.lit "undefined"
  end.

(** ** [src/lib/client.js] *)

Definition TERMINATING_CHARACTER : JsString := [0].
Definition INC_PACKET_SEARCHBOUND : nat := 100.

Definition DEBUG_MODE (env : Env) : bool :=
  bool_decide (process_env env !! Js.lit "GM_SERVER_DEBUG" = Some (Js.lit "true")).

Record Client : Type := {
  socket : SocketId;
  dataHandlers : list HandlerId;
  clientId : JsString;
  created : Z;
  data : gmap JsString Json;
  tickMode : bool;
  tickModeQueue : list Json;
  packetCounter : Z
}.

(** The object and the trace of the calls made so far. *)
Record State : Type := {
  this : Client;
  trace : list Event
}.

Inductive Outcome (A : Type) : Type :=
| Returned (v : A) (st : State)
| Thrown (e : JsError) (st : State).
Arguments Returned {A} v st.
Arguments Thrown {A} e st.

Definition M (A : Type) : Type := State -> Outcome A.

Definition ret {A} (v : A) : M A := fun st => Returned v st.

Definition throw {A} (e : JsError) : M A := fun st => Thrown e st.

Definition bind {A B} (m : M A) (k : A -> M B) : M B :=
  fun st =>
    match m st with
    | Returned v st' => k v st'
    | Thrown e st' => Thrown e st'
    end.

#[global] Instance M_ret : MRet M := @ret.
#[global] Instance M_bind : MBind M := fun A B k m => bind m k.

Definition read : M Client := fun st => Returned (this st) st.

Definition update (f : Client -> Client) : M unit :=
  fun st => Returned tt {| this := f (this st); trace := trace st |}.

Definition emit (ev : Event) : M unit :=
  fun st => Returned tt {| this := this st; trace := trace st ++ [ev] |}.

Definition lift {A} (r : JsError + A) : M A :=
  match r with
  | inl e => throw e
  | inr v => ret v
  end.

Definition when (b : bool) (m : M unit) : M unit := if b then m else ret tt.

(** The state reached, whichever way the call ended. *)
Definition final {A} (o : Outcome A) : State :=
  match o with
  | Returned _ st => st
  | Thrown _ st => st
  end.

Definition set_data (d : gmap JsString Json) (c : Client) : Client :=
  {| socket := socket c; dataHandlers := dataHandlers c; clientId := clientId c;
     created := created c; data := d; tickMode := tickMode c;
     tickModeQueue := tickModeQueue c; packetCounter := packetCounter c |}.

Definition set_dataHandlers (hs : list HandlerId) (c : Client) : Client :=
  {| socket := socket c; dataHandlers := hs; clientId := clientId c;
     created := created c; data := data c; tickMode := tickMode c;
     tickModeQueue := tickModeQueue c; packetCounter := packetCounter c |}.

Definition set_tickMode (b : bool) (c : Client) : Client :=
  {| socket := socket c; dataHandlers := dataHandlers c; clientId := clientId c;
     created := created c; data := data c; tickMode := b;
     tickModeQueue := tickModeQueue c; packetCounter := packetCounter c |}.

Definition set_tickModeQueue (q : list Json) (c : Client) : Client :=
  {| socket := socket c; dataHandlers := dataHandlers c; clientId := clientId c;
     created := created c; data := data c; tickMode := tickMode c;
     tickModeQueue := q; packetCounter := packetCounter c |}.

Definition set_packetCounter (n : Z) (c : Client) : Client :=
  {| socket := socket c; dataHandlers := dataHandlers c; clientId := clientId c;
     created := created c; data := data c; tickMode := tickMode c;
     tickModeQueue := tickModeQueue c; packetCounter := n |}.

(** What a method hands back: [None] is [undefined]. *)
Definition undefined : option Json := None.

(** [set(key, value)] *)
Definition set (key : JsString) (value : Json) : M (option Json) :=
  update (fun c => set_data (<[key := value]> (data c)) c);;
  ret undefined.

(** [get(key)], for a key that is not a property of [Object.prototype]. *)
Definition get (key : JsString) : M (option Json) :=
  c ← read;
  ret (data c !! key).

(** [directSend(command)] *)
Definition directSend (env : Env) (command : Json) : M (option Json) :=
  destroyed ← get (Js.lit "destroyed");
  if JSON.truthy destroyed then ret (Some (JBool false))
  else
    header ← lift (getenv env (Js.lit "PATCH_HEADER") None);
    (* safety check - remove header from content *)
    let payload :=
      to_string header
        ++ Js.replace_with_empty (JSON.stringify command) (to_string header) in
    c ← read;
    when (DEBUG_MODE env)
         (emit (ConsoleInfo [clientId c; Js.lit " is sending: "; payload]));;
    emit (SocketWrite (socket c) payload);;
    ret (Some (JBool true)).

(** [data.command = command] in strict mode: a property of an object is
    set; an array takes the property without showing it among its
    elements; [null] and the primitive values refuse it. *)
Definition assign_command (data command : Json) : JsError + Json :=
  match data with
  | JObj fields => inr (JObj (JSON.set_field (Js.lit "command") command fields))
  | JArr items => inr (JArr items)
  | _ => inl TypeError
  end.

(** [data.batch] and [data.commands]: a property of that name exists on
    objects only, and reading it from [null] throws. *)
Definition get_property (data : Json) (key : JsString) : JsError + option Json :=
  match data with
  | JObj fields => inr (JSON.lookup_field key fields)
  | JNull => inl TypeError
  | _ => inr None
  end.

(** The first statement of [send]: the object that is sent, [command]
    itself when [data] is left out ([None]), and otherwise [data] with
    [command] as its property of that name. *)
Definition resolve_data (command : Json) (data : option Json) : JsError + Json :=
  match data with
  | None => inr command
  | Some d => assign_command d command
  end.

(** [send(command, data)]; [data] is [None] when it is left out. *)
Definition send (env : Env) (command : Json) (data : option Json)
  : M (option Json) :=
  data ← lift (resolve_data command data);
  c ← read;
  if tickMode c then
    batch ← lift (get_property data (Js.lit "batch"));
    if JSON.truthy batch then
      (* If this is a batch send, put all of the commands into the queue. *)
      commands ← lift (get_property data (Js.lit "commands"));
      match commands with
      | Some (JArr items) =>
          update (fun c => set_tickModeQueue (tickModeQueue c ++ items) c);;
          ret undefined
      | _ => throw TypeError
      end
    else
      update (fun c => set_tickModeQueue (tickModeQueue c ++ [data]) c);;
      ret undefined
  else
    directSend env data;;
    ret undefined.

(** [prepareCommand(command)] *)
Definition prepareCommand (command : Json) : JsString := JSON.stringify command.

Definition batch_of (commands : Json) : Json :=
  JObj [(Js.lit "batch", JBool true); (Js.lit "commands", commands)].

(** [batchSend(commandList)] *)
Definition batchSend (env : Env) (commandList : Json) : M (option Json) :=
  send env (batch_of commandList) None.

(** [on(eventName, handler)] *)
Definition on (eventName : JsString) (handler : HandlerId) : M (option Json) :=
  c ← read;
  emit (SocketOn (socket c) eventName (Handler handler));;
  ret undefined.

(** [onData(handler)] *)
Definition onData (handler : HandlerId) : M (option Json) :=
  update (fun c => set_dataHandlers (dataHandlers c ++ [handler]) c);;
  ret undefined.

(** [setTickMode(onOff)] *)
Definition setTickMode (onOff : bool) : M (option Json) :=
  update (set_tickMode onOff);;
  ret undefined.

(** [tick()] *)
Definition tick (env : Env) : M (option Json) :=
  c ← read;
  if negb (tickMode c) then
    throw (Error (Js.lit "Cannot tick when not in tick mode"))
  else if negb (List.length (tickModeQueue c) =? 0)%nat then
    directSend env (batch_of (JArr (tickModeQueue c)));;
    update (set_tickModeQueue []);;
    ret undefined
  else ret undefined.

(** [destroy()]. The transport closed is [client.socket], where [client]
    is not a name of the method or of the module. *)
Definition destroy (env : Env) : M (option Json) :=
  destroyed ← get (Js.lit "destroyed");
  if negb (JSON.truthy destroyed) then
    set (Js.lit "destroyed") (JBool true);;
    match global_client env with
    | None => throw ReferenceError
    | Some None => throw TypeError
    | Some (Some sock) => emit (SocketDestroy sock);; ret undefined
    end
  else ret undefined.

(** The pair [splitCommandAndHash] returns; the field [data] of the source
    is [payload] here. *)
Record Split : Type := { hash : JsString; payload : JsString }.

(** [Client.splitCommandAndHash(data)] *)
Definition splitCommandAndHash (data : JsString) : Split :=
  let hashLength := 40%Z in
  let hash := Js.slice data (- hashLength) None in
  let actualData := Js.slice data 0 (Some (- hashLength)%Z) in
  {| hash := hash; payload := actualData |}.

Definition key : JsString :=
  Js.lit "5FR%7Yt!7DgB!69rDXZU8pL7!&iHqDpq@9tX@Zir43JsfymWZg2rTzQ02%pVtgK7LO7n0Znh".

(** The digest the validator computes for a candidate sequence number. *)
Definition serverHash (payload : JsString) (checkPacket : Z) : JsString :=
  sha1_hex (payload ++ key ++ Double.toString checkPacket).

(** The [for] loop of [validateClientCommandIntegrity] from index [i] on,
    [remaining] being [INC_PACKET_SEARCHBOUND - i]: the candidate that
    matched, or the last [modifiedData] when none did. *)
Fixpoint search (remaining : nat) (i : Z) (data : Split) (counter : Z)
    (modifiedData : JsString) : Z + JsString :=
  match remaining with
  | O => inr modifiedData
  | S remaining' =>
      let checkPacket := Double.add counter i in
      let modifiedData := payload data ++ key ++ Double.toString checkPacket in
      if Js.eqb (sha1_hex modifiedData) (hash data) then inl checkPacket
      else search remaining' (i + 1)%Z data counter modifiedData
  end.

(** [validateClientCommandIntegrity(data)] *)
Definition validateClientCommandIntegrity (env : Env) (data : Split) : M bool :=
  c ← read;
  match search INC_PACKET_SEARCHBOUND 0 data (packetCounter c)
               (Js.lit "undefined") with
  | inl checkPacket =>
      update (set_packetCounter checkPacket);;
      ret true
  | inr modifiedData =>
      emit (ConsoleError [Js.lit "Could not match packet Id for " ++ modifiedData]);;
      destroy env;;
      ret false
  end.

(** The text [{"command": "missingSocketDataString"}] of the source, with
    its space after the colon. *)
Definition placeholder : JsString :=
  Js.lit "{" ++ Js.quoted "command" ++ Js.lit ": "
    ++ Js.quoted "missingSocketDataString" ++ Js.lit "}".

(** The first lines of [getObjectFromRaw]: the text that is split and
    validated. *)
Definition trimmedData (data : Buffer) : JsString :=
  let rawSocketDataString := toString_utf8 data in
  let terminatingIndex := Js.indexOf rawSocketDataString TERMINATING_CHARACTER in
  let trimmedData :=
    if (terminatingIndex >? -1)%Z
    then Js.substr rawSocketDataString 0 terminatingIndex
    else rawSocketDataString in
  if Js.eqb (Js.trim trimmedData) [] then placeholder else trimmedData.

(** [getObjectFromRaw(data)]; the [false] it returns is [JBool false]. *)
Definition getObjectFromRaw (env : Env) (data : Buffer) : M Json :=
  let dataSplit := splitCommandAndHash (trimmedData data) in
  validated ← validateClientCommandIntegrity env dataSplit;
  if (validated : bool) then
    match JSON.parse (payload dataSplit) with
    | None => ret (JBool false)
    | Some objectFromData => ret objectFromData
    end
  else ret (JBool false).

(** [dataAsObject === false] *)
Definition is_false (v : Json) : bool :=
  match v with
  | JBool false => true
  | _ => false
  end.

(** [this.dataHandlers.forEach(handler => handler(dataAsObject))] *)
Fixpoint forEach_handler (handlers : list HandlerId) (arg : Json) : M unit :=
  match handlers with
  | [] => ret tt
  | h :: rest => emit (HandlerCall h arg);; forEach_handler rest arg
  end.

(** The listener the constructor registers for the socket's data event. *)
Definition on_data (env : Env) (data : Buffer) : M unit :=
  dataAsObject ← getObjectFromRaw env data;
  if is_false dataAsObject then
    when (DEBUG_MODE env)
         (emit (ConsoleError [Js.lit "Tossing out packet as does not have integrity."]))
  else
    c ← read;
    when (DEBUG_MODE env)
         (emit (ConsoleInfo [clientId c; Js.lit " received: ";
                             JSON.stringify dataAsObject]));;
    update (fun c => set_packetCounter (Double.add (packetCounter c) 1) c);;
    c ← read;
    forEach_handler (dataHandlers c) dataAsObject.

(** [new Client(socket)]; [uniqueId] and [now] are what [_.uniqueId()] and
    [Date.now()] return. *)
Definition constructor (env : Env) (sock : SocketId) (uniqueId : JsString)
    (now : Z) : Outcome unit :=
  let fresh :=
    {| socket := sock; dataHandlers := []; clientId := uniqueId;
       created := now; data := ∅; tickMode := false; tickModeQueue := [];
       packetCounter := 0%Z |} in
  (emit (SocketOn sock (Js.lit "data") DataListener);;
   send env (JObj [(Js.lit "command", JStr (Js.lit "connected"))]) None;;
   ret tt)
    {| this := fresh; trace := [] |}.

(** ** Observations *)

(** The signature of a payload for a sequence number, as the sender of a
    frame computes it: the 40 hexadecimal characters of the SHA-1 digest
    of the payload, the secret and the decimal string of the number. *)
Definition signature (p : JsString) (s : Z) : JsString :=
  sha1_hex (p ++ key ++ Js.decimal s).

(** The object the placeholder stands for, and its JSON text, which is
    the placeholder as the specification writes it. *)
Definition missingSocketDataString : Json :=
  JObj [(Js.lit "command", JStr (Js.lit "missingSocketDataString"))].

Definition canonical_placeholder : JsString :=
  Js.lit "{" ++ Js.quoted "command" ++ Js.lit ":"
    ++ Js.quoted "missingSocketDataString" ++ Js.lit "}".

(** The frame for a payload and a sequence number. *)
Definition signed_frame (p : JsString) (s : Z) : JsString :=
  p ++ signature p s.

(** [store.destroyed] of the specification. *)
Definition is_destroyed (st : State) : bool :=
  JSON.truthy (data (this st) !! Js.lit "destroyed").

(** The frames written to a transport, in order. *)
Fixpoint writes (sock : SocketId) (tr : list Event) : list JsString :=
  match tr with
  | [] => []
  | SocketWrite s payload :: tr' =>
      if Nat.eqb s sock then payload :: writes sock tr' else writes sock tr'
  | _ :: tr' => writes sock tr'
  end.

(** How many times a transport was closed. *)
Fixpoint closes (sock : SocketId) (tr : list Event) : nat :=
  match tr with
  | [] => 0
  | SocketDestroy s :: tr' =>
      if Nat.eqb s sock then S (closes sock tr') else closes sock tr'
  | _ :: tr' => closes sock tr'
  end.

(** The handlers invoked, with their argument, in order. *)
Fixpoint handler_calls (tr : list Event) : list (HandlerId * Json) :=
  match tr with
  | [] => []
  | HandlerCall h arg :: tr' => (h, arg) :: handler_calls tr'
  | _ :: tr' => handler_calls tr'
  end.

(** The connection once [set("destroyed", true)] has run. *)
Definition mark_destroyed (st : State) : State :=
  {| this := set_data (<[Js.lit "destroyed" := JBool true]> (data (this st)))
                      (this st);
     trace := trace st |}.

(** The frame [directSend] writes for a command, given what [getenv]
    returned for the header. *)
Definition outbound_frame (header : option JsString) (command : Json) : JsString :=
  to_string header
    ++ Js.replace_with_empty (JSON.stringify command) (to_string header).

(** What [directSend] logs before it writes. *)
Definition sending_log (env : Env) (st : State) (frame : JsString) : list Event :=
  if DEBUG_MODE env
  then [ConsoleInfo [clientId (this st); Js.lit " is sending: "; frame]]
  else [].

(** What the data listener logs when it drops a packet, and when it
    dispatches an object. *)
Definition toss_log (env : Env) : list Event :=
  if DEBUG_MODE env
  then [ConsoleError [Js.lit "Tossing out packet as does not have integrity."]]
  else [].


(** The logical packet of the specification's framer: the text before the
    first NUL, or the whole text when it has none. *)
Inductive Framed : JsString -> JsString -> Prop :=
| framed_before_nul pre post : 0 ∉ pre -> Framed (pre ++ 0 :: post) pre
| framed_whole raw : 0 ∉ raw -> Framed raw raw.



(** A computation relates the counter it finds to the counter it leaves,
    whether it returns or throws. *)
Definition preserves (R : Z -> Z -> Prop) {A : Type} (m : M A) : Prop :=
  forall st, R (packetCounter (this st)) (packetCounter (this (final (m st)))).

(** A counter that is a number of the platform stays one. *)
Definition stays_double (old new : Z) : Prop :=
  Double.is_double old = true -> Double.is_double new = true.

(** The number a list of decimal digits stands for, least significant
    digit first. *)
Definition lsd_value (ds : JsString) : N :=
  fold_right (fun c acc => (c - 48) + 10 * acc) 0 ds.

(** With this much depth, the parser of values, the one of array elements
    and the one of object members do not run out of it, and each leaves
    less input than it was given. *)
Definition parser_fed_and_consuming (fuel : nat) : Prop :=
  (forall s, (2 * List.length s + 1 <= fuel)%nat ->
     JSON.parse_value fuel s <> JSON.Starved)
  /\ (forall s v rest, JSON.parse_value fuel s = JSON.Ok v rest ->
        (List.length rest < List.length s)%nat)
  /\ (forall acc s, (2 * List.length s + 2 <= fuel)%nat ->
        JSON.parse_elements fuel acc s <> JSON.Starved)
  /\ (forall acc s v rest, JSON.parse_elements fuel acc s = JSON.Ok v rest ->
        (List.length rest < List.length s)%nat)
  /\ (forall acc s, (2 * List.length s + 2 <= fuel)%nat ->
        JSON.parse_members fuel acc s <> JSON.Starved)
  /\ (forall acc s v rest, JSON.parse_members fuel acc s = JSON.Ok v rest ->
        (List.length rest < List.length s)%nat).

(** ** The operations of a connection *)

Inductive Op : Type :=
| OpData (data : Buffer)
| OpSend (command : Json) (data : option Json)
| OpDirectSend (command : Json)
| OpBatchSend (commandList : Json)
| OpSet (key : JsString) (value : Json)
| OpGet (key : JsString)
| OpOn (eventName : JsString) (handler : HandlerId)
| OpOnData (handler : HandlerId)
| OpSetTickMode (onOff : bool)
| OpTick
| OpGetObjectFromRaw (data : Buffer)
| OpValidateClientCommandIntegrity (data : Split)
| OpDestroy.

(** The state an operation leaves, whether it returns or throws. *)
Definition step (env : Env) (op : Op) (st : State) : State :=
  match op with
  | OpData data => final (on_data env data st)
  | OpSend command data => final (send env command data st)
  | OpDirectSend command => final (directSend env command st)
  | OpBatchSend commandList => final (batchSend env commandList st)
  | OpSet key value => final (set key value st)
  | OpGet key => final (get key st)
  | OpOn eventName handler => final (on eventName handler st)
  | OpOnData handler => final (onData handler st)
  | OpSetTickMode onOff => final (setTickMode onOff st)
  | OpTick => final (tick env st)
  | OpGetObjectFromRaw data => final (getObjectFromRaw env data st)
  | OpValidateClientCommandIntegrity data =>
      final (validateClientCommandIntegrity env data st)
  | OpDestroy => final (destroy env st)
  end.

Fixpoint run (env : Env) (ops : list Op) (st : State) : State :=
  match ops with
  | [] => st
  | op :: rest => run env rest (step env op st)
  end.

(** ** Sample inputs *)

Module Sample.

(** The header is configured and no global [client] exists. *)
Definition env : Env :=
  {| process_env := {[ Js.lit "PATCH_HEADER" := Js.lit "AB" ]};
     global_client := None |}.

(** A connection on transport 1, as the constructor leaves it. *)
Definition connection : State :=
  final (constructor env 1%nat (Js.lit "1") 0).

(** The same connection with handler 5 registered. *)
Definition listening : State := final (onData 5%nat connection).

(** The same connection in tick mode. *)
Definition ticking : State := final (setTickMode true connection).

(** The same connection after [destroy()]. *)
Definition destroyed : State := final (destroy env connection).

(** The text of the object with the one property [command]. *)
Definition command_text (name : string) : JsString :=
  Js.lit "{" ++ Js.quoted "command" ++ Js.lit ":" ++ Js.quoted name ++ Js.lit "}".

Definition command (name : string) : Json :=
  JObj [(Js.lit "command", JStr (Js.lit name))].

(** A frame as a peer builds it: the payload, then the digest for a
    sequence number. *)
Definition frame (payload : JsString) (sequence : Z) : Buffer :=
  {| toString_utf8 := payload ++ serverHash payload sequence |}.

End Sample.

(** * Properties *)

Ltac unfold_monad :=
  unfold lift, when;
  unfold mbind, M_bind, bind, mret, M_ret;
  unfold ret, throw, read, update, emit;
  cbv beta iota.

(** ** Known answers *)

Example sha1_of_abc :
  sha1_hex (Js.lit "abc") = Js.lit "a9993e364706816aba3e25717850c26c9cd0d89d".
Proof. vm_compute. reflexivity. Qed.

Example sha1_of_empty :
  sha1_hex [] = Js.lit "da39a3ee5e6b4b0d3255bfef95601890afd80709".
Proof. vm_compute. reflexivity. Qed.

Example sha1_of_two_blocks :
  sha1_hex (Js.lit "abcdbcdecdefdefgefghfghighijhijkijkljklmklmnlmnomnopnopq")
  = Js.lit "84983e441c3bd26ebaae4aa1f95129e5e54670f1".
Proof. vm_compute. reflexivity. Qed.

Example digest_of_ping_at_0 :
  serverHash (Sample.command_text "ping") 0
  = Js.lit "80bb47f66daa7fa8dfae597978c9e97f3265fb5d".
Proof. vm_compute. reflexivity. Qed.

Example utf8_of_surrogates :
  Js.utf8 [233; 8364; 55357; 56832; 55357] =
  [195; 169; 226; 130; 172; 240; 159; 152; 128; 239; 191; 189].
Proof. vm_compute. reflexivity. Qed.

Example parse_then_stringify :
  option_map JSON.stringify
    (JSON.parse (Js.lit " [1, 2.50, -0, 1e3, 1.5e-7, 1e21, 0.000001, true, null, {}] "))
  = Some (Js.lit "[1,2.5,0,1000,1.5e-7,1e+21,0.000001,true,null,{}]").
Proof. vm_compute. reflexivity. Qed.

Example parse_rejects :
  List.map JSON.parse
    [Js.lit "not json"; []; Js.lit "01"; Js.lit "[1,]"; Js.lit "{,}";
     Js.lit "1 2"; Js.lit "nul"; Js.lit ".5"; Js.lit "+1"; Js.lit "[1"]
  = repeat None 10.
Proof. vm_compute. reflexivity. Qed.

Example placeholder_is_shorter_than_a_digest :
  List.length placeholder = 38%nat
  /\ splitCommandAndHash placeholder = {| hash := placeholder; payload := [] |}.
Proof. split; vm_compute; reflexivity. Qed.

Example sums_beyond_exact_integers :
  Double.add (2 ^ 53) 1 = (2 ^ 53)%Z
  /\ Double.add (2 ^ 53) 2 = (2 ^ 53 + 2)%Z
  /\ Double.add (2 ^ 53) 3 = (2 ^ 53 + 4)%Z
  /\ Double.add (2 ^ 53 - 1) 1 = (2 ^ 53)%Z.
Proof. vm_compute. repeat split; reflexivity. Qed.

Example toString_of_large_numbers :
  Double.toString (2 ^ 53) = Js.lit "9007199254740992"
  /\ Double.toString (2 ^ 60) = Js.lit "1152921504606847000"
  /\ Double.toString (2 ^ 64) = Js.lit "18446744073709552000"
  /\ Double.toString (10 ^ 21) = Js.lit "1e+21"
  /\ Double.toString (2 ^ 70) = Js.lit "1.1805916207174113e+21"
  /\ Double.toString (-12) = Js.lit "-12".
Proof. vm_compute. repeat split; reflexivity. Qed.

(** ** The recursion depth of [JSON.parse] *)

Lemma skip_ws_length s : (List.length (JSON.skip_ws s) <= List.length s)%nat.
Proof.
  induction s as [|c s IH]; cbn [JSON.skip_ws List.length]; [lia|].
  destruct (JSON.is_ws c); cbn [List.length]; lia.
Qed.

Lemma skip_ws_cons s c rest :
  JSON.skip_ws s = c :: rest -> (List.length rest < List.length s)%nat.
Proof.
  intros Hs. pose proof (skip_ws_length s) as Hle. rewrite Hs in Hle.
  cbn [List.length] in Hle. lia.
Qed.

Lemma parse_string_body_consumes s : forall acc k rest,
  JSON.parse_string_body acc s = JSON.Ok k rest ->
  (List.length rest < List.length s)%nat.
Proof.
  induction s as [s IH]
    using (well_founded_ind (Wf_nat.well_founded_ltof _ (@List.length N))).
  unfold Wf_nat.ltof in IH.
  intros acc k rest. destruct s as [|c s1]; cbn [JSON.parse_string_body]; [discriminate|].
  destruct (c =? 34).
  { intros [= _ <-]. cbn [List.length]. lia. }
  destruct (c <? 32); [discriminate|].
  destruct (c =? 92).
  - destruct s1 as [|e s2]; [discriminate|].
    destruct (e =? 117).
    + destruct s2 as [|h1 [|h2 [|h3 [|h4 s3]]]]; try discriminate.
      destruct (JSON.hex4_value h1 h2 h3 h4); [|discriminate].
      intros Hk. apply IH in Hk; cbn [List.length] in *; lia.
    + destruct (JSON.simple_escape e); [|discriminate].
      intros Hk. apply IH in Hk; cbn [List.length] in *; lia.
  - intros Hk. apply IH in Hk; cbn [List.length] in *; lia.
Qed.

Lemma parse_string_body_fed s : forall acc,
  JSON.parse_string_body acc s <> JSON.Starved.
Proof.
  induction s as [s IH]
    using (well_founded_ind (Wf_nat.well_founded_ltof _ (@List.length N))).
  unfold Wf_nat.ltof in IH.
  intros acc. destruct s as [|c s1]; cbn [JSON.parse_string_body]; [discriminate|].
  destruct (c =? 34); [discriminate|].
  destruct (c <? 32); [discriminate|].
  destruct (c =? 92).
  - destruct s1 as [|e s2]; [discriminate|].
    destruct (e =? 117).
    + destruct s2 as [|h1 [|h2 [|h3 [|h4 s3]]]]; try discriminate.
      destruct (JSON.hex4_value h1 h2 h3 h4); [|discriminate].
      apply IH. cbn [List.length]. lia.
    + destruct (JSON.simple_escape e); [|discriminate].
      apply IH. cbn [List.length]. lia.
  - apply IH. cbn [List.length]. lia.
Qed.

Lemma span_digits_length s : forall ds rest,
  JSON.span_digits s = (ds, rest) ->
  List.length s = (List.length ds + List.length rest)%nat.
Proof.
  induction s as [|c s IH]; intros ds rest; cbn [JSON.span_digits].
  - intros [= <- <-]. reflexivity.
  - destruct (JSON.is_digit c).
    + destruct (JSON.span_digits s) as [ds' rest'] eqn:E.
      intros [= <- <-]. cbn [List.length]. rewrite (IH _ _ eq_refl). lia.
    + intros [= <- <-]. reflexivity.
Qed.

Lemma parse_fraction_spec s :
  JSON.parse_fraction s <> JSON.Starved
  /\ forall frac rest, JSON.parse_fraction s = JSON.Ok frac rest ->
       (List.length rest <= List.length s)%nat.
Proof.
  unfold JSON.parse_fraction. destruct s as [|c s1].
  { split; [discriminate|]. intros frac rest [= _ <-]. lia. }
  destruct (c =? 46).
  - destruct (JSON.span_digits s1) as [[|d ds] rest'] eqn:E.
    + split; [discriminate|]. discriminate.
    + split; [discriminate|]. intros frac rest [= _ <-].
      apply span_digits_length in E. cbn [List.length] in *. lia.
  - split; [discriminate|]. intros frac rest [= _ <-]. lia.
Qed.

Lemma parse_exponent_spec s :
  JSON.parse_exponent s <> JSON.Starved
  /\ forall ex rest, JSON.parse_exponent s = JSON.Ok ex rest ->
       (List.length rest <= List.length s)%nat.
Proof.
  unfold JSON.parse_exponent. destruct s as [|c s1].
  { split; [discriminate|]. intros ex rest [= _ <-]. lia. }
  destruct ((c =? 101) || (c =? 69)).
  - assert (Hsign : exists negative s2,
              match s1 with
              | d :: s2 => if d =? 45 then (true, s2)
                           else if d =? 43 then (false, s2) else (false, s1)
              | [] => (false, s1)
              end = (negative, s2)
              /\ (List.length s2 <= List.length s1)%nat).
    { destruct s1 as [|d s2]; [eexists _, _; split; [reflexivity|lia]|].
      destruct (d =? 45); [eexists _, _; split; [reflexivity|cbn [List.length]; lia]|].
      destruct (d =? 43); eexists _, _; (split; [reflexivity|cbn [List.length]; lia]). }
    destruct Hsign as (negative & s2 & -> & Hlen).
    destruct (JSON.span_digits s2) as [[|d ds] rest'] eqn:E.
    + split; discriminate.
    + split; [discriminate|]. intros ex rest [= _ <-].
      apply span_digits_length in E. cbn [List.length] in *. lia.
  - split; [discriminate|]. intros ex rest [= _ <-]. lia.
Qed.

Lemma parse_number_spec s :
  JSON.parse_number s <> JSON.Starved
  /\ forall v rest, JSON.parse_number s = JSON.Ok v rest ->
       (List.length rest < List.length s)%nat.
Proof.
  unfold JSON.parse_number.
  assert (Hsign : exists negative s1,
            match s with
            | c :: s' => if c =? 45 then (true, s') else (false, s)
            | [] => (false, s)
            end = (negative, s1)
            /\ (List.length s1 <= List.length s)%nat).
  { destruct s as [|c s']; [eexists _, _; split; [reflexivity|lia]|].
    destruct (c =? 45); eexists _, _; (split; [reflexivity|cbn [List.length]; lia]). }
  destruct Hsign as (negative & s1 & -> & Hlen).
  destruct (JSON.span_digits s1) as [[|d int] s2] eqn:E.
  { split; discriminate. }
  apply span_digits_length in E. cbn [List.length] in E.
  match goal with |- context [if ?b then _ else _] => destruct b end.
  { split; discriminate. }
  destruct (parse_fraction_spec s2) as [Hfed Hfrac].
  destruct (JSON.parse_fraction s2) as [frac s3| |]; [|split; discriminate|contradiction].
  specialize (Hfrac _ _ eq_refl).
  destruct (parse_exponent_spec s3) as [Hfed' Hex].
  destruct (JSON.parse_exponent s3) as [ex s4| |]; [|split; discriminate|contradiction].
  specialize (Hex _ _ eq_refl).
  split; [discriminate|]. intros v rest [= _ <-]. lia.
Qed.

Lemma starts_with_length p s :
  Js.starts_with p s = true -> (List.length p <= List.length s)%nat.
Proof.
  revert s. induction p as [|x p IH]; intros s; cbn [Js.starts_with List.length]; [lia|].
  destruct s as [|y s]; [discriminate|]. cbn [List.length].
  intros H. apply andb_true_iff in H as [_ H]. apply IH in H. lia.
Qed.

Lemma parse_literal_spec word v s :
  word <> EmptyString ->
  JSON.parse_literal word v s <> JSON.Starved
  /\ forall v' rest, JSON.parse_literal word v s = JSON.Ok v' rest ->
       (List.length rest < List.length s)%nat.
Proof.
  intros Hword. unfold JSON.parse_literal.
  destruct (Js.starts_with (Js.lit word) s) eqn:E; [|split; discriminate].
  split; [discriminate|]. intros v' rest [= _ <-].
  apply starts_with_length in E. rewrite length_drop.
  unfold Js.lit in E. rewrite length_map in E.
  destruct word as [|a word]; [contradiction|].
  cbn [list_ascii_of_string List.length String.length] in *. lia.
Qed.

Lemma parser_fed fuel : parser_fed_and_consuming fuel.
Proof.
  induction fuel as [|fuel (IHv_fed & IHv_ok & IHe_fed & IHe_ok & IHm_fed & IHm_ok)].
  { repeat split; intros; try discriminate; cbn in *; lia. }
  pose proof (fun w v s H => proj1 (parse_literal_spec w v s H)) as Hlit_fed.
  pose proof (fun w v s H => proj2 (parse_literal_spec w v s H)) as Hlit_ok.
  assert (Hvalue_ok : forall s v rest,
            JSON.parse_value (S fuel) s = JSON.Ok v rest ->
            (List.length rest < List.length s)%nat).
  { intros s v rest. cbn [JSON.parse_value].
    destruct (JSON.skip_ws s) as [|c s1] eqn:Hs; [discriminate|].
    apply skip_ws_cons in Hs.
    destruct (c =? 123).
    { destruct (JSON.skip_ws s1) as [|d s2] eqn:Hs1; [discriminate|].
      apply skip_ws_cons in Hs1.
      destruct (d =? 125); [intros [= _ <-]; lia|].
      intros H. apply IHm_ok in H. lia. }
    destruct (c =? 91).
    { destruct (JSON.skip_ws s1) as [|d s2] eqn:Hs1; [discriminate|].
      apply skip_ws_cons in Hs1.
      destruct (d =? 93); [intros [= _ <-]; lia|].
      intros H. apply IHe_ok in H. lia. }
    destruct (c =? 34).
    { destruct (JSON.parse_string_body [] s1) as [str rest'| |] eqn:Hstr;
        try discriminate.
      apply parse_string_body_consumes in Hstr. intros [= _ <-]. lia. }
    destruct (c =? 116).
    { intros H. apply Hlit_ok in H; [|discriminate]. cbn [List.length] in H. lia. }
    destruct (c =? 102).
    { intros H. apply Hlit_ok in H; [|discriminate]. cbn [List.length] in H. lia. }
    destruct (c =? 110).
    { intros H. apply Hlit_ok in H; [|discriminate]. cbn [List.length] in H. lia. }
    intros H. apply (proj2 (parse_number_spec _)) in H. cbn [List.length] in H. lia. }
  split; [|split; [exact Hvalue_ok|]].
  { intros s Hfuel. cbn [JSON.parse_value].
    destruct (JSON.skip_ws s) as [|c s1] eqn:Hs; [discriminate|].
    apply skip_ws_cons in Hs.
    destruct (c =? 123).
    { destruct (JSON.skip_ws s1) as [|d s2] eqn:Hs1; [discriminate|].
      destruct (d =? 125); [discriminate|]. apply IHm_fed. lia. }
    destruct (c =? 91).
    { destruct (JSON.skip_ws s1) as [|d s2] eqn:Hs1; [discriminate|].
      destruct (d =? 93); [discriminate|]. apply IHe_fed. lia. }
    destruct (c =? 34).
    { pose proof (parse_string_body_fed s1 []) as Hstr.
      destruct (JSON.parse_string_body [] s1); [discriminate|discriminate|contradiction]. }
    destruct (c =? 116); [apply Hlit_fed; discriminate|].
    destruct (c =? 102); [apply Hlit_fed; discriminate|].
    destruct (c =? 110); [apply Hlit_fed; discriminate|].
    apply parse_number_spec. }
  split; [|split; [|split]].
  - intros acc s Hfuel. cbn [JSON.parse_elements].
    pose proof (IHv_fed s ltac:(lia)) as Hfed. pose proof (IHv_ok s) as Hok.
    destruct (JSON.parse_value fuel s) as [v s1| |]; [|discriminate|contradiction].
    specialize (Hok _ _ eq_refl).
    destruct (JSON.skip_ws s1) as [|c s2] eqn:Hs1; [discriminate|].
    apply skip_ws_cons in Hs1.
    destruct (c =? 44); [apply IHe_fed; lia|].
    destruct (c =? 93); discriminate.
  - intros acc s v rest. cbn [JSON.parse_elements].
    pose proof (IHv_ok s) as Hok.
    destruct (JSON.parse_value fuel s) as [v1 s1| |]; try discriminate.
    specialize (Hok _ _ eq_refl).
    destruct (JSON.skip_ws s1) as [|c s2] eqn:Hs1; [discriminate|].
    apply skip_ws_cons in Hs1.
    destruct (c =? 44); [intros H; apply IHe_ok in H; lia|].
    destruct (c =? 93); [intros [= _ <-]; lia | discriminate].
  - intros acc s Hfuel. cbn [JSON.parse_members].
    destruct (JSON.skip_ws s) as [|q s1] eqn:Hs; [discriminate|].
    apply skip_ws_cons in Hs.
    destruct (q =? 34); [|discriminate].
    pose proof (parse_string_body_fed s1 []) as Hstr.
    destruct (JSON.parse_string_body [] s1) as [k s2| |] eqn:Hk;
      [|discriminate|contradiction].
    apply parse_string_body_consumes in Hk.
    destruct (JSON.skip_ws s2) as [|colon s3] eqn:Hs2; [discriminate|].
    apply skip_ws_cons in Hs2.
    destruct (colon =? 58); [|discriminate].
    pose proof (IHv_fed s3 ltac:(lia)) as Hfed. pose proof (IHv_ok s3) as Hok.
    destruct (JSON.parse_value fuel s3) as [v s4| |]; [|discriminate|contradiction].
    specialize (Hok _ _ eq_refl).
    destruct (JSON.skip_ws s4) as [|c s5] eqn:Hs4; [discriminate|].
    apply skip_ws_cons in Hs4.
    destruct (c =? 44); [apply IHm_fed; lia|].
    destruct (c =? 125); discriminate.
  - intros acc s v rest. cbn [JSON.parse_members].
    destruct (JSON.skip_ws s) as [|q s1] eqn:Hs; [discriminate|].
    apply skip_ws_cons in Hs.
    destruct (q =? 34); [|discriminate].
    destruct (JSON.parse_string_body [] s1) as [k s2| |] eqn:Hk; try discriminate.
    apply parse_string_body_consumes in Hk.
    destruct (JSON.skip_ws s2) as [|colon s3] eqn:Hs2; [discriminate|].
    apply skip_ws_cons in Hs2.
    destruct (colon =? 58); [|discriminate].
    pose proof (IHv_ok s3) as Hok.
    destruct (JSON.parse_value fuel s3) as [v1 s4| |]; try discriminate.
    specialize (Hok _ _ eq_refl).
    destruct (JSON.skip_ws s4) as [|c s5] eqn:Hs4; [discriminate|].
    apply skip_ws_cons in Hs4.
    destruct (c =? 44); [intros H; apply IHm_ok in H; lia|].
    destruct (c =? 125); [intros [= _ <-]; lia | discriminate].
Qed.

(** [JSON.parse] never stops for want of depth: what it rejects is a
    syntax error. *)
Lemma parse_depth_suffices s :
  JSON.parse_value (2 * List.length s + 2) s <> JSON.Starved.
Proof. apply (parser_fed (2 * List.length s + 2)). lia. Qed.

(** ** Decimal strings *)

Lemma digits_rev_value fuel : forall n,
  n < 2 ^ N.of_nat fuel -> lsd_value (Js.digits_rev fuel n) = n.
Proof.
  induction fuel as [|fuel IH]; intros n Hn.
  - cbn in Hn. assert (n = 0) as -> by lia. reflexivity.
  - cbn [Js.digits_rev]. destruct (N.ltb_spec n 10) as [Hlt|Hge].
    + cbn [lsd_value fold_right]. lia.
    + cbn [lsd_value fold_right]. fold (lsd_value (Js.digits_rev fuel (n / 10))).
      rewrite IH.
      * pose proof (N.div_mod n 10 ltac:(lia)) as Hdiv.
        set (q := n / 10) in *. set (r := n mod 10) in *. lia.
      * rewrite Nat2N.inj_succ, N.pow_succ_r' in Hn.
        apply N.Div0.div_lt_upper_bound.
        set (p := 2 ^ N.of_nat fuel) in *. lia.
Qed.

Lemma decimal_N_value n : lsd_value (rev (Js.decimal_N n)) = n.
Proof.
  unfold Js.decimal_N. rewrite rev_involutive. apply digits_rev_value.
  rewrite Nat2N.inj_succ, N2Nat.id.
  destruct (N.eq_dec n 0) as [->|Hn]; [reflexivity|].
  apply N.log2_spec. lia.
Qed.

Lemma decimal_N_injective m n : Js.decimal_N m = Js.decimal_N n -> m = n.
Proof.
  intros H. rewrite <- (decimal_N_value m), <- (decimal_N_value n), H. reflexivity.
Qed.

Lemma digits_rev_are_digits fuel : forall n c,
  In c (Js.digits_rev fuel n) -> 48 <= c <= 57.
Proof.
  induction fuel as [|fuel IH]; intros n c; cbn [Js.digits_rev]; [intros []|].
  destruct (N.ltb_spec n 10) as [Hlt|Hge].
  - intros [<-|[]]. lia.
  - intros [<-|Hin]; [|eapply IH; exact Hin].
    pose proof (N.mod_upper_bound n 10 ltac:(lia)).
    set (r := n mod 10) in *. lia.
Qed.

(** Two sequence numbers have the same decimal string only when they are
    equal: the candidates of a search are hashed from different texts. *)
Lemma decimal_injective m n : Js.decimal m = Js.decimal n -> m = n.
Proof.
  unfold Js.decimal.
  assert (Hdigit : forall k rest, Js.decimal_N k = 45 :: rest -> False).
  { intros k rest Hk.
    assert (Hin : In 45 (Js.decimal_N k)) by (rewrite Hk; left; reflexivity).
    unfold Js.decimal_N in Hin. apply in_rev in Hin.
    apply digits_rev_are_digits in Hin. lia. }
  destruct (Z.ltb_spec m 0) as [Hm|Hm], (Z.ltb_spec n 0) as [Hn|Hn]; intros H.
  - injection H as H. apply decimal_N_injective in H. lia.
  - symmetry in H. apply Hdigit in H. contradiction.
  - apply Hdigit in H. contradiction.
  - apply decimal_N_injective in H. lia.
Qed.

(** ** Sums and decimal strings of counters *)

Section Doubles.

Local Open Scope Z_scope.






Lemma ulp_pos a : 0 < Double.ulp a.
Proof. unfold Double.ulp. apply Z.pow_pos_nonneg; lia. Qed.

Lemma nearest_between a u :
  0 < u -> a / u * u <= Double.nearest a u <= (a / u + 1) * u.
Proof.
  intros Hu. unfold Double.nearest.
  repeat match goal with |- context [if ?b then _ else _] => destruct b end; nia.
Qed.

Lemma nearest_multiple a u : exists q, Double.nearest a u = q * u.
Proof.
  unfold Double.nearest.
  repeat match goal with |- context [if ?b then _ else _] => destruct b end;
    eauto.
Qed.

Lemma nearest_of_multiple q u : 0 < u -> Double.nearest (q * u) u = q * u.
Proof.
  intros Hu. unfold Double.nearest.
  rewrite Z.mod_mul, Z.div_mul by lia.
  replace (2 * 0 <? u) with true by (symmetry; apply Z.ltb_lt; lia).
  reflexivity.
Qed.

Lemma nearest_above d a u :
  0 < u -> d <= a -> (exists q, d = q * u) -> d <= Double.nearest a u.
Proof.
  intros Hu Hda [q ->].
  pose proof (nearest_between a u Hu) as [Hlo _].
  assert (q <= a / u) by (apply Z.div_le_lower_bound; lia).
  nia.
Qed.

Lemma nearest_below d a u :
  0 < u -> a <= d -> (exists q, d = q * u) -> Double.nearest a u <= d.
Proof.
  intros Hu Hda [q ->].
  destruct (Z.eq_dec (a mod u) 0) as [Hr|Hr].
  - assert (a = a / u * u) as Ha.
    { pose proof (Z.div_mod a u ltac:(lia)). lia. }
    rewrite Ha at 1. rewrite nearest_of_multiple by lia. lia.
  - pose proof (nearest_between a u Hu) as [_ Hhi].
    pose proof (Z.div_mod a u ltac:(lia)) as Hdm.
    pose proof (Z.mod_pos_bound a u Hu) as Hm.
    assert (a <> q * u) by (intros ->; rewrite Z.mod_mul in Hr; lia).
    assert (a / u < q) by (apply Z.div_lt_upper_bound; lia).
    transitivity ((a / u + 1) * u); [exact Hhi|].
    apply Z.mul_le_mono_nonneg_r; lia.
Qed.

(** The spacing at [a] is [2 ^ e], for the [e] that puts [a] below
    [2 ^ (e + 53)], and at or above [2 ^ (e + 52)] when [e] is not 0. *)
Lemma ulp_exponent a : 0 <= a ->
  let e := Z.max 0 (Z.log2 a - 52) in
  0 <= e /\ Double.ulp a = 2 ^ e /\ a < 2 ^ (e + 53)
  /\ (0 < e -> 2 ^ (e + 52) <= a).
Proof.
  intros Ha e. split; [lia|]. split; [reflexivity|].
  destruct (Z.eq_dec a 0) as [->|Hn].
  - split; [apply Z.pow_pos_nonneg; lia|].
    intros He. exfalso. subst e. cbn in He. lia.
  - pose proof (Z.log2_spec a ltac:(lia)) as [Hlo Hhi].
    pose proof (Z.log2_nonneg a).
    split.
    + eapply Z.lt_le_trans; [exact Hhi|].
      apply Z.pow_le_mono_r; lia.
    + intros He. replace (e + 52) with (Z.log2 a) by lia. exact Hlo.
Qed.

Lemma round_nonneg x : 0 <= x -> Double.round x = Double.nearest x (Double.ulp x).
Proof.
  intros H. unfold Double.round. rewrite Z.abs_eq by lia.
  destruct (Z.eq_dec x 0) as [->|Hn]; [reflexivity|].
  rewrite Z.sgn_pos by lia. lia.
Qed.

Lemma round_opp x : Double.round (- x) = - Double.round x.
Proof.
  unfold Double.round. rewrite Z.abs_opp, Z.sgn_opp. lia.
Qed.

Lemma pow2_multiple (e e' : Z) : 0 <= e <= e' -> 2 ^ e' = 2 ^ (e' - e) * 2 ^ e.
Proof. intros H. rewrite <- Z.pow_add_r by lia. f_equal. lia. Qed.

Lemma round_above c x :
  0 <= c <= x -> Double.round c = c -> c <= Double.round x.
Proof.
  intros [Hc Hcx] Hd.
  rewrite round_nonneg in Hd |- * by lia.
  destruct (ulp_exponent c Hc) as (Hec & Huc & Hcu & _).
  destruct (ulp_exponent x ltac:(lia)) as (Hex & Hux & _ & Hxl).
  set (ec := Z.max 0 (Z.log2 c - 52)) in *.
  set (ex := Z.max 0 (Z.log2 x - 52)) in *.
  assert (ec <= ex).
  { unfold ec, ex. pose proof (Z.log2_le_mono c x Hcx). lia. }
  pose proof (ulp_pos x) as Hpx.
  destruct (Z.eq_dec ec ex) as [He|He].
  - apply nearest_above; [lia|lia|].
    destruct (nearest_multiple c (Double.ulp c)) as [q Hq].
    exists q. rewrite <- Hd at 1. rewrite Hq, Huc, Hux, He. reflexivity.
  - assert (2 ^ (ex + 52) <= x) by (apply Hxl; lia).
    assert (2 ^ (ec + 53) <= 2 ^ (ex + 52)) by (apply Z.pow_le_mono_r; lia).
    transitivity (2 ^ (ex + 52)); [lia|].
    apply nearest_above; [lia|lia|].
    exists (2 ^ 52). rewrite Hux, <- Z.pow_add_r by lia. f_equal. lia.
Qed.

Lemma round_below y d :
  0 <= y <= d -> Double.round d = d -> Double.round y <= d.
Proof.
  intros [Hy Hyd] Hd.
  rewrite round_nonneg in Hd |- * by lia.
  destruct (ulp_exponent y Hy) as (Hey & Huy & Hyu & _).
  destruct (ulp_exponent d ltac:(lia)) as (Hed & Hud & _ & Hdl).
  set (ey := Z.max 0 (Z.log2 y - 52)) in *.
  set (ed := Z.max 0 (Z.log2 d - 52)) in *.
  assert (ey <= ed).
  { unfold ey, ed. pose proof (Z.log2_le_mono y d Hyd). lia. }
  pose proof (ulp_pos y) as Hpy.
  destruct (Z.eq_dec ey ed) as [He|He].
  - apply nearest_below; [lia|lia|].
    destruct (nearest_multiple d (Double.ulp d)) as [q Hq].
    exists q. rewrite <- Hd at 1. rewrite Hq, Huy, Hud, He. reflexivity.
  - assert (2 ^ (ed + 52) <= d) by (apply Hdl; lia).
    assert (2 ^ (ey + 53) <= 2 ^ (ed + 52)) by (apply Z.pow_le_mono_r; lia).
    transitivity (2 ^ (ey + 53)); [|lia].
    apply nearest_below; [lia|lia|].
    exists (2 ^ 53). rewrite Huy, <- Z.pow_add_r by lia. f_equal. lia.
Qed.

(** Rounding never crosses a double. *)
Lemma round_keeps_order c x :
  Double.round c = c -> c <= x -> c <= Double.round x.
Proof.
  intros Hd Hcx.
  destruct (Z_le_gt_dec 0 c) as [Hc|Hc].
  - apply round_above; [lia|exact Hd].
  - destruct (Z_le_gt_dec 0 x) as [Hx|Hx].
    + assert (0 <= Double.round x); [|lia].
      apply round_above; [lia|reflexivity].
    + assert (Double.round (- x) <= - c); [|rewrite round_opp in *; lia].
      apply round_below; [lia|]. rewrite round_opp. lia.
Qed.


Lemma add_grows a b : 0 <= b -> a <= Double.add a b.
Proof.
  intros Hb. unfold Double.add, Double.is_double.
  destruct (Z.eqb_spec (Double.round a) a) as [Hd|Hd]; [|lia].
  apply round_keeps_order; [exact Hd|lia].
Qed.

(** Up to 2^53 a number is printed with every digit of its value. *)
Lemma toString_exact x : Z.abs x <= 2 ^ 53 -> Double.toString x = Js.decimal x.
Proof.
  intros H. destruct (Z.eq_dec (Z.abs x) (2 ^ 53)) as [He|He].
  - destruct (Z.abs_spec x) as [[_ Ha]|[_ Ha]].
    + rewrite Ha in He. rewrite He. vm_compute. reflexivity.
    + assert (x = - 2 ^ 53) as -> by lia. vm_compute. reflexivity.
  - unfold Double.toString, Double.shortest.
    replace (Z.abs x <? 2 ^ 53) with true by (symmetry; apply Z.ltb_lt; lia).
    replace (Z.abs x <? 10 ^ 21) with true
      by (symmetry; apply Z.ltb_lt; change (2 ^ 53) with 9007199254740992 in *;
          change (10 ^ 21) with 1000000000000000000000; lia).
    reflexivity.
Qed.

End Doubles.

(** ** Digest splitting and the search of the validator *)

Lemma hex8_length w : List.length (Sha1.hex8 w) = 8%nat.
Proof. reflexivity. Qed.

Lemma sha1_hex_length s : List.length (sha1_hex s) = 40%nat.
Proof.
  unfold sha1_hex. destruct (Sha1.digest (Js.utf8 s)) as [[[[a b] c] d] e].
  unfold Sha1.hex. rewrite !length_app, !hex8_length. reflexivity.
Qed.

Lemma slice_last (p d : JsString) :
  List.length d = 40%nat -> Js.slice (p ++ d) (-40) None = d.
Proof.
  intros Hd. unfold Js.slice, Js.clamp_index. simpl.
  rewrite length_app, Hd.
  replace (Z.to_nat (Z.max (Z.of_nat (List.length p + 40) + -40) 0))
    with (List.length p) by lia.
  rewrite drop_app_length. apply take_ge. lia.
Qed.

Lemma slice_front (p d : JsString) :
  List.length d = 40%nat -> Js.slice (p ++ d) 0 (Some (-40)%Z) = p.
Proof.
  intros Hd. unfold Js.slice, Js.clamp_index. simpl.
  rewrite length_app, Hd.
  replace (Z.to_nat (Z.max (Z.of_nat (List.length p + 40) + -40) 0))
    with (List.length p) by lia.
  rewrite Nat.sub_0_r. apply take_app_length.
Qed.

Lemma split_frame (p d : JsString) :
  List.length d = 40%nat ->
  splitCommandAndHash (p ++ d) = {| hash := d; payload := p |}.
Proof.
  intros Hd. unfold splitCommandAndHash. simpl.
  change (- (40))%Z with (-40)%Z.
  rewrite slice_last, slice_front by exact Hd. reflexivity.
Qed.

Lemma eqb_eq (a b : JsString) : Js.eqb a b = true <-> a = b.
Proof. unfold Js.eqb. apply bool_decide_eq_true. Qed.

Lemma eqb_neq (a b : JsString) : Js.eqb a b = false <-> a <> b.
Proof. unfold Js.eqb. apply bool_decide_eq_false. Qed.

(** The candidates of the search, tried from [counter + i] upwards. *)
Lemma search_matched remaining : forall i data counter md k,
  search remaining i data counter md = inl k ->
  exists j : nat,
    (j < remaining)%nat /\ k = Double.add counter (i + Z.of_nat j)
    /\ serverHash (payload data) k = hash data
    /\ forall j' : nat, (j' < j)%nat ->
         serverHash (payload data) (Double.add counter (i + Z.of_nat j'))
           <> hash data.
Proof.
  induction remaining as [|n IH]; intros i data counter md k; cbn [search].
  - discriminate.
  - destruct (Js.eqb _ _) eqn:E.
    + intros [= <-]. exists 0%nat. rewrite Z.add_0_r. split; [lia|].
      split; [reflexivity|]. split; [apply eqb_eq, E|]. intros j' Hj'. lia.
    + intros Hs. apply IH in Hs as (j & Hj & -> & Hm & Hfirst).
      replace (i + 1 + Z.of_nat j)%Z with (i + Z.of_nat (S j))%Z in * by lia.
      exists (S j). split; [lia|]. split; [reflexivity|]. split; [exact Hm|].
      intros [|j'] Hj'.
      * rewrite Z.add_0_r. apply eqb_neq, E.
      * replace (i + Z.of_nat (S j'))%Z with (i + 1 + Z.of_nat j')%Z by lia.
        apply Hfirst. lia.
Qed.

Lemma search_unmatched remaining : forall i data counter md md',
  search remaining i data counter md = inr md' ->
  forall j : nat, (j < remaining)%nat ->
    serverHash (payload data) (Double.add counter (i + Z.of_nat j)) <> hash data.
Proof.
  induction remaining as [|n IH]; intros i data counter md md'; cbn [search].
  - intros _ j Hj. lia.
  - destruct (Js.eqb _ _) eqn:E; [discriminate|].
    intros Hs [|j] Hj.
    + rewrite Z.add_0_r. apply eqb_neq, E.
    + replace (i + Z.of_nat (S j))%Z with (i + 1 + Z.of_nat j)%Z by lia.
      eapply IH; [exact Hs | lia].
Qed.


(** A text shorter than a digest is all hash and no payload, and no
    candidate matches it: this is the fate of the placeholder. *)
Lemma short_frame_never_validates (text : JsString) remaining i counter md :
  (List.length text < 40)%nat ->
  exists md',
    search remaining i (splitCommandAndHash text) counter md = inr md'.
Proof.
  intros Hshort.
  destruct (search _ _ _ _ _) as [k|md'] eqn:E; [|eauto].
  exfalso. apply search_matched in E as (j & _ & _ & Hm & _).
  apply (f_equal (@List.length _)) in Hm.
  unfold serverHash in Hm. rewrite sha1_hex_length in Hm.
  unfold splitCommandAndHash in Hm. cbn [hash] in Hm.
  unfold Js.slice in Hm. rewrite length_take, length_drop in Hm. lia.
Qed.

Lemma validate_matched env data st k :
  search INC_PACKET_SEARCHBOUND 0 data (packetCounter (this st)) (Js.lit "undefined")
    = inl k ->
  validateClientCommandIntegrity env data st
    = Returned true {| this := set_packetCounter k (this st); trace := trace st |}.
Proof.
  intros Hs. unfold validateClientCommandIntegrity, mbind, M_bind, bind, read.
  rewrite Hs. reflexivity.
Qed.





(** ** Teardown *)

Lemma destroy_live env st :
  is_destroyed st = false ->
  destroy env st =
    match global_client env with
    | None => Thrown ReferenceError (mark_destroyed st)
    | Some None => Thrown TypeError (mark_destroyed st)
    | Some (Some sock) =>
        Returned undefined
          {| this := this (mark_destroyed st);
             trace := trace st ++ [SocketDestroy sock] |}
    end.
Proof.
  unfold is_destroyed. intros Hlive.
  unfold destroy, get, set. unfold_monad. rewrite Hlive. cbn [negb].
  destruct (global_client env) as [[sock|]|]; reflexivity.
Qed.

Lemma destroy_dead env st :
  is_destroyed st = true -> destroy env st = Returned undefined st.
Proof.
  unfold is_destroyed. intros Hdead.
  unfold destroy, get. unfold_monad. rewrite Hdead. reflexivity.
Qed.

Lemma mark_destroyed_is_destroyed st : is_destroyed (mark_destroyed st) = true.
Proof.
  unfold is_destroyed, mark_destroyed. cbn [this data set_data].
  rewrite lookup_insert_eq. reflexivity.
Qed.

Lemma closes_app sock tr1 tr2 :
  closes sock (tr1 ++ tr2) = (closes sock tr1 + closes sock tr2)%nat.
Proof.
  induction tr1 as [|ev tr1 IH]; [reflexivity|].
  destruct ev; cbn [closes app]; try exact IH.
  destruct (Nat.eqb sock0 sock); [rewrite IH; reflexivity | exact IH].
Qed.

Lemma writes_app sock tr1 tr2 :
  writes sock (tr1 ++ tr2) = writes sock tr1 ++ writes sock tr2.
Proof.
  induction tr1 as [|ev tr1 IH]; [reflexivity|].
  destruct ev; cbn [writes app]; try exact IH.
  destruct (Nat.eqb sock0 sock); [rewrite IH; reflexivity | exact IH].
Qed.

Lemma handler_calls_app tr1 tr2 :
  handler_calls (tr1 ++ tr2) = handler_calls tr1 ++ handler_calls tr2.
Proof.
  induction tr1 as [|ev tr1 IH]; [reflexivity|].
  destruct ev; cbn [handler_calls app]; try exact IH.
  rewrite IH. reflexivity.
Qed.

(** Were the free identifier [client] bound to the connection itself,
    two calls of [destroy] would close its transport once. *)
Lemma destroy_twice_when_client_is_this env st :
  global_client env = Some (Some (socket (this st))) ->
  is_destroyed st = false ->
  exists st1,
    destroy env st = Returned undefined st1
    /\ destroy env st1 = Returned undefined st1
    /\ is_destroyed st1 = true
    /\ closes (socket (this st)) (trace st1)
       = S (closes (socket (this st)) (trace st)).
Proof.
  intros Hbound Hlive. rewrite (destroy_live _ _ Hlive), Hbound.
  eexists. split; [reflexivity|]. split; [|split].
  - apply destroy_dead. apply (mark_destroyed_is_destroyed st).
  - apply (mark_destroyed_is_destroyed st).
  - cbn [trace]. rewrite closes_app. cbn [closes].
    rewrite Nat.eqb_refl. lia.
Qed.

(** With no global [client], the first call throws after it has set the
    flag, and no call ever closes the transport. *)
Lemma destroy_twice_when_client_is_unbound env st :
  global_client env = None ->
  is_destroyed st = false ->
  destroy env st = Thrown ReferenceError (mark_destroyed st)
  /\ destroy env (mark_destroyed st) = Returned undefined (mark_destroyed st)
  /\ trace (mark_destroyed st) = trace st.
Proof.
  intros Hunbound Hlive. rewrite (destroy_live _ _ Hlive), Hunbound.
  split; [reflexivity|]. split; [|reflexivity].
  apply destroy_dead, mark_destroyed_is_destroyed.
Qed.

(** C4 fails on the code. On a connection made by the constructor, in
    a process without a global [client], the first [destroy()] sets
    [destroyed] and then throws a [ReferenceError]; the second one does
    nothing; the transport of the connection is closed by neither: zero
    times, not once. *)
Theorem destroy_twice_leaves_transport_open :
  let first := destroy Sample.env Sample.connection in
  let second := destroy Sample.env (final first) in
  first = Thrown ReferenceError (mark_destroyed Sample.connection)
  /\ second = Returned undefined (mark_destroyed Sample.connection)
  /\ is_destroyed (final second) = true
  /\ closes (socket (this Sample.connection)) (trace (final second)) = 0%nat.
Proof.
  cbv zeta.
  destruct (destroy_twice_when_client_is_unbound Sample.env Sample.connection)
    as (H1 & H2 & H3); [reflexivity | vm_compute; reflexivity |].
  rewrite H1. cbn [final]. rewrite H2. cbn [final].
  split; [reflexivity|]. split; [reflexivity|].
  split; [apply mark_destroyed_is_destroyed|].
  rewrite H3. vm_compute. reflexivity.
Qed.

Lemma validate_unmatched env data st md :
  search INC_PACKET_SEARCHBOUND 0 data (packetCounter (this st)) (Js.lit "undefined")
    = inr md ->
  validateClientCommandIntegrity env data st
    = (destroy env;; mret false)
        {| this := this st;
           trace := trace st
                      ++ [ConsoleError [Js.lit "Could not match packet Id for " ++ md]] |}.
Proof.
  intros Hs. unfold validateClientCommandIntegrity. unfold_monad.
  rewrite Hs. reflexivity.
Qed.

(** A digest that is the one of no candidate of the window ends the
    search without a match. *)
Lemma search_beyond_window (p d : JsString) (c : Z) md :
  List.length d = 40%nat ->
  (forall j : nat, (j < INC_PACKET_SEARCHBOUND)%nat ->
     serverHash p (Double.add c (Z.of_nat j)) <> d) ->
  exists md',
    search INC_PACKET_SEARCHBOUND 0 (splitCommandAndHash (p ++ d)) c md = inr md'.
Proof.
  intros Hd Hfree. rewrite split_frame by exact Hd.
  destruct (search _ _ _ _ _) as [k|md'] eqn:E; [|eauto].
  exfalso. apply search_matched in E as (j & Hj & -> & Hm & _).
  cbn [payload hash] in Hm. exact (Hfree j Hj Hm).
Qed.

(** C3 fails on the code. The payload [{"command":"ping"}] signed for
    sequence number 100 is offered to a fresh connection (counter 0), in
    a process without a global [client]: no candidate of the window
    matches and [destroyed] is set, but [destroy()] throws a
    [ReferenceError] out of the validator and the transport of the
    connection is not closed. *)
Theorem validate_beyond_window_leaves_transport_open :
  let p := Sample.command_text "ping" in
  let outcome :=
    validateClientCommandIntegrity Sample.env
      (splitCommandAndHash (p ++ serverHash p 100)) Sample.connection in
  (exists st, outcome = Thrown ReferenceError st)
  /\ is_destroyed (final outcome) = true
  /\ closes (socket (this Sample.connection)) (trace (final outcome)) = 0%nat.
Proof.
  cbv zeta.
  set (p := Sample.command_text "ping").
  assert (exists md,
            search INC_PACKET_SEARCHBOUND 0
              (splitCommandAndHash (p ++ serverHash p 100))
              (packetCounter (this Sample.connection)) (Js.lit "undefined")
            = inr md) as [md E].
  { eexists. vm_compute. reflexivity. }
  rewrite (validate_unmatched _ _ _ _ E). unfold_monad.
  rewrite destroy_live by (vm_compute; reflexivity).
  cbn [global_client Sample.env final].
  split; [eauto|]. split; [apply mark_destroyed_is_destroyed|].
  cbn [mark_destroyed trace]. rewrite closes_app. vm_compute. reflexivity.
Qed.

(** ** The outbound path *)

Lemma directSend_dead env command st :
  is_destroyed st = true ->
  directSend env command st = Returned (Some (JBool false)) st.
Proof.
  unfold is_destroyed. intros Hdead.
  unfold directSend, get. unfold_monad. rewrite Hdead. reflexivity.
Qed.

Lemma directSend_live env command st header :
  is_destroyed st = false ->
  getenv env (Js.lit "PATCH_HEADER") None = inr header ->
  directSend env command st
    = Returned (Some (JBool true))
        {| this := this st;
           trace := (trace st ++ sending_log env st (outbound_frame header command))
                      ++ [SocketWrite (socket (this st)) (outbound_frame header command)] |}.
Proof.
  unfold is_destroyed. intros Hlive Henv.
  unfold directSend, get. unfold_monad. rewrite Hlive, Henv.
  unfold sending_log, outbound_frame.
  destruct (DEBUG_MODE env); cbn [this trace]; [reflexivity|].
  rewrite app_nil_r. destruct st; reflexivity.
Qed.

Lemma directSend_unconfigured env command st e :
  is_destroyed st = false ->
  getenv env (Js.lit "PATCH_HEADER") None = inl e ->
  directSend env command st = Thrown e st.
Proof.
  unfold is_destroyed. intros Hlive Henv.
  unfold directSend, get. unfold_monad. rewrite Hlive, Henv. reflexivity.
Qed.

Lemma getenv_set env name value :
  process_env env !! name = Some value -> value <> [] ->
  getenv env name None = inr (Some value).
Proof.
  intros Hv Hne. unfold getenv. rewrite Hv. destruct value; [contradiction|reflexivity].
Qed.

Lemma sending_log_writes sock env st frame :
  writes sock (sending_log env st frame) = [].
Proof. unfold sending_log. destruct (DEBUG_MODE env); reflexivity. Qed.


(** A batch is taken apart: its commands are queued one by one. *)
Lemma send_flattens env command data st fields items :
  tickMode (this st) = true ->
  resolve_data command data = inr (JObj fields) ->
  JSON.truthy (JSON.lookup_field (Js.lit "batch") fields) = true ->
  JSON.lookup_field (Js.lit "commands") fields = Some (JArr items) ->
  send env command data st
    = Returned undefined
        {| this := set_tickModeQueue (tickModeQueue (this st) ++ items) (this st);
           trace := trace st |}.
Proof.
  intros Htick Hres Hbatch Hcommands. unfold send. unfold_monad.
  rewrite Hres. cbv beta iota. rewrite Htick. cbn [get_property].
  rewrite Hbatch. cbv beta iota. rewrite Hcommands. reflexivity.
Qed.



Lemma tick_flushes env st header q0 q :
  tickMode (this st) = true -> tickModeQueue (this st) = q0 :: q ->
  is_destroyed st = false ->
  getenv env (Js.lit "PATCH_HEADER") None = inr header ->
  let frame := outbound_frame header (batch_of (JArr (q0 :: q))) in
  tick env st
    = Returned undefined
        {| this := set_tickModeQueue [] (this st);
           trace := (trace st ++ sending_log env st frame)
                      ++ [SocketWrite (socket (this st)) frame] |}.
Proof.
  intros Htick Hq Hlive Henv frame. unfold tick.
  unfold mbind, M_bind, bind, read. rewrite Htick, Hq. cbn [negb List.length Nat.eqb].
  rewrite (directSend_live _ _ _ _ Hlive Henv). reflexivity.
Qed.

(** The header is no part of a text that does not contain it. *)
Lemma replace_absent (text header : JsString) :
  Js.find header text = None -> Js.replace_with_empty text header = text.
Proof. intros Habsent. unfold Js.replace_with_empty. rewrite Habsent. reflexivity. Qed.




(** ** Sending on a destroyed connection *)

(** C5, amended. On a connection whose [destroyed] flag is set,
    [directSend] returns [false] and leaves the connection and the trace
    as they were; [send] calls nothing outside the class (no write to the
    transport among them), in tick mode or not, and every value it
    returns is [undefined]; out of tick mode it changes nothing at all. *)
Theorem send_after_destroy env st command data :
  is_destroyed st = true ->
  directSend env command st = Returned (Some (JBool false)) st
  /\ trace (final (send env command data st)) = trace st
  /\ (forall v st', send env command data st = Returned v st' -> v = undefined)
  /\ (tickMode (this st) = false ->
      forall cmd, resolve_data command data = inr cmd ->
        send env command data st = Returned undefined st).
Proof.
  intros Hdead. split; [apply directSend_dead, Hdead|].
  unfold send. unfold_monad.
  destruct (resolve_data command data) as [e|cmd]; cbv beta iota.
  { split; [reflexivity|]. split; [discriminate|]. intros _ cmd [=]. }
  destruct (tickMode (this st)) eqn:Htick; cbv beta iota.
  - assert (Hend : forall o : Outcome (option Json),
              ((exists e, o = Thrown e st)
               \/ exists q, o = Returned undefined
                                {| this := set_tickModeQueue q (this st);
                                   trace := trace st |}) ->
              trace (final o) = trace st
              /\ (forall v st', o = Returned v st' -> v = undefined)).
    { intros o [[e ->] | [q ->]]; (split; [reflexivity|]).
      - discriminate.
      - intros v st' [= <- _]. reflexivity. }
    rewrite (and_assoc _ _ (true = false -> _)).
    split; [|discriminate]. apply Hend.
    destruct (get_property cmd (Js.lit "batch")) as [e|batch]; cbv beta iota;
      [left; eexists; reflexivity|].
    destruct (JSON.truthy batch); cbv beta iota; [|right; eexists; reflexivity].
    destruct (get_property cmd (Js.lit "commands")) as [e|[[]|]]; cbv beta iota;
      try (left; eexists; reflexivity).
    right. eexists. reflexivity.
  - rewrite (directSend_dead _ _ _ Hdead).
    split; [reflexivity|]. split; [intros v st' [= <- _]; reflexivity|].
    intros _ cmd' _. reflexivity.
Qed.

(** On the sample connection after [destroy()]. *)
Lemma send_after_destroy_witness :
  directSend Sample.env (Sample.command "ping") Sample.destroyed
    = Returned (Some (JBool false)) Sample.destroyed
  /\ trace (final (send Sample.env (Sample.command "ping") None Sample.destroyed))
     = trace Sample.destroyed.
Proof.
  destruct (send_after_destroy Sample.env Sample.destroyed (Sample.command "ping") None)
    as (Hdirect & Htrace & _).
  - vm_compute. reflexivity.
  - split; [exact Hdirect | exact Htrace].
Defined.

(** C5 as stated fails: [send] has no [return] statement. On a
    destroyed connection it returns [undefined], as it does when the
    frame is written, and not the [false] of [directSend]. *)
Lemma send_after_destroy_returns_undefined :
  ~ (forall env st command data,
       is_destroyed st = true ->
       exists st',
         send env command data st = Returned (Some (JBool false)) st'
         /\ writes (socket (this st)) (trace st')
            = writes (socket (this st)) (trace st)).
Proof.
  intros Hclaim.
  destruct (Hclaim Sample.env Sample.destroyed (Sample.command "ping") None)
    as (st' & Hsend & _); [vm_compute; reflexivity|].
  assert (Hsent : send Sample.env (Sample.command "ping") None Sample.destroyed
                  = Returned undefined Sample.destroyed) by (vm_compute; reflexivity).
  rewrite Hsent in Hsend. discriminate Hsend.
Qed.

(** On a live connection [send] hands back the same [undefined]. *)
Lemma send_returns_undefined_when_it_writes :
  exists st',
    send Sample.env (Sample.command "ping") None Sample.connection
      = Returned undefined st'
    /\ writes 1%nat (trace st')
       = writes 1%nat (trace Sample.connection)
           ++ [Js.lit "AB" ++ Sample.command_text "ping"].
Proof. eexists. split; vm_compute; reflexivity. Qed.

(** ** The header in the body of a frame *)

(** C7 fails on the code. With the header [AB], the command
    [{command: "ABAB"}] is written as [AB{"command":"AB"}]:
    [replace] with a string pattern removes the first occurrence of the
    header and leaves the second one in the body of the frame, at index
    12. *)
Theorem directSend_strips_first_header_only :
  let command := Sample.command "ABAB" in
  JSON.stringify command = Sample.command_text "ABAB"
  /\ (exists st,
        directSend Sample.env command Sample.connection
          = Returned (Some (JBool true)) st
        /\ writes 1%nat (trace st)
           = writes 1%nat (trace Sample.connection)
               ++ [Js.lit "AB" ++ Sample.command_text "AB"])
  /\ Js.find (Js.lit "AB") (Sample.command_text "AB") = Some 12%nat.
Proof.
  cbv zeta. split; [vm_compute; reflexivity|]. split.
  - eexists. split; vm_compute; reflexivity.
  - vm_compute. reflexivity.
Qed.

(** ** The inbound path *)



Lemma getObjectFromRaw_validated env data st s :
  search INC_PACKET_SEARCHBOUND 0 (splitCommandAndHash (trimmedData data))
         (packetCounter (this st)) (Js.lit "undefined") = inl s ->
  getObjectFromRaw env data st
    = Returned
        (match JSON.parse (payload (splitCommandAndHash (trimmedData data))) with
         | None => JBool false
         | Some objectFromData => objectFromData
         end)
        {| this := set_packetCounter s (this st); trace := trace st |}.
Proof.
  intros Hs. unfold getObjectFromRaw. cbv zeta. unfold mbind, M_bind, bind.
  rewrite (validate_matched _ _ _ _ Hs).
  destruct (JSON.parse _); reflexivity.
Qed.

Lemma on_data_tossed env data st s :
  search INC_PACKET_SEARCHBOUND 0 (splitCommandAndHash (trimmedData data))
         (packetCounter (this st)) (Js.lit "undefined") = inl s ->
  is_false (match JSON.parse (payload (splitCommandAndHash (trimmedData data))) with
            | None => JBool false
            | Some objectFromData => objectFromData
            end) = true ->
  on_data env data st
    = Returned tt {| this := set_packetCounter s (this st);
                     trace := trace st ++ toss_log env |}.
Proof.
  intros Hs Hfalse. unfold on_data. unfold mbind, M_bind, bind.
  rewrite (getObjectFromRaw_validated _ _ _ _ Hs), Hfalse.
  unfold toss_log, when, emit, ret. destruct (DEBUG_MODE env); cbn [this trace].
  - reflexivity.
  - rewrite app_nil_r. reflexivity.
Qed.


Lemma toss_log_quiet env :
  handler_calls (toss_log env) = []
  /\ (forall sock, closes sock (toss_log env) = 0%nat)
  /\ (forall sock, writes sock (toss_log env) = []).
Proof. unfold toss_log. destruct (DEBUG_MODE env); repeat split. Qed.


(** C8. When the digest of a packet matches a candidate [s] of the
    window and its payload is not JSON, the data listener returns
    normally, invokes no handler, writes nothing to the transport and
    closes none; the connection keeps its store (so it is destroyed no
    more than before), its handlers and its queue, and only its counter
    has moved, to [s]. In debug mode one line goes to the console. *)
Theorem unparsable_payload_is_dropped env data st s :
  search INC_PACKET_SEARCHBOUND 0 (splitCommandAndHash (trimmedData data))
         (packetCounter (this st)) (Js.lit "undefined") = inl s ->
  JSON.parse (payload (splitCommandAndHash (trimmedData data))) = None ->
  exists st',
    on_data env data st = Returned tt st'
    /\ this st' = set_packetCounter s (this st)
    /\ trace st' = trace st ++ toss_log env
    /\ handler_calls (trace st') = handler_calls (trace st)
    /\ is_destroyed st' = is_destroyed st
    /\ (forall sock, closes sock (trace st') = closes sock (trace st))
    /\ (forall sock, writes sock (trace st') = writes sock (trace st)).
Proof.
  intros Hs Hparse. eexists. split.
  { apply (on_data_tossed _ _ _ _ Hs). rewrite Hparse. reflexivity. }
  destruct (toss_log_quiet env) as (Hcalls & Hcloses & Hwrites).
  cbn [this trace]. split; [reflexivity|]. split; [reflexivity|].
  split; [rewrite handler_calls_app, Hcalls; apply app_nil_r|].
  split; [reflexivity|]. split; intros sock.
  - rewrite closes_app, Hcloses. lia.
  - rewrite writes_app, Hwrites. apply app_nil_r.
Qed.

(** C2 fails on the code. The payload [false], signed for sequence
    number 3, reaches a fresh connection with handler 5. Its digest
    matches the candidate 3, which the validator makes the counter, and
    it parses as JSON, to the value [false]; the listener takes that
    value for the [false] that [getObjectFromRaw] returns for a packet
    it rejects, and returns without counting the packet or invoking the
    handler: the counter is 3 afterwards, where C2 has 4. The payload
    [true], signed the same, is counted and dispatched, and so is
    [null]. *)
Theorem false_payload_is_taken_for_a_rejection :
  let data := Sample.frame (Js.lit "false") 3 in
  search INC_PACKET_SEARCHBOUND 0 (splitCommandAndHash (trimmedData data))
         (packetCounter (this Sample.listening)) (Js.lit "undefined") = inl 3%Z
  /\ JSON.parse (payload (splitCommandAndHash (trimmedData data)))
     = Some (JBool false)
  /\ (exists st',
        on_data Sample.env data Sample.listening = Returned tt st'
        /\ packetCounter (this st') = 3%Z
        /\ handler_calls (trace st') = [])
  /\ (exists st',
        on_data Sample.env (Sample.frame (Js.lit "true") 3) Sample.listening
          = Returned tt st'
        /\ packetCounter (this st') = 4%Z
        /\ handler_calls (trace st') = [(5%nat, JBool true)])
  /\ (exists st',
        on_data Sample.env (Sample.frame (Js.lit "null") 3) Sample.listening
          = Returned tt st'
        /\ packetCounter (this st') = 4%Z
        /\ handler_calls (trace st') = [(5%nat, JNull)]).
Proof.
  cbv zeta.
  split; [vm_compute; reflexivity|].
  split; [vm_compute; reflexivity|].
  split; [|split].
  - eexists. split; [vm_compute; reflexivity|].
    split; vm_compute; reflexivity.
  - eexists. split; [vm_compute; reflexivity|].
    split; vm_compute; reflexivity.
  - eexists. split; [vm_compute; reflexivity|].
    split; vm_compute; reflexivity.
Qed.

(** The text [not json], signed for sequence number 2, on a connection
    with one handler. *)
Lemma unparsable_payload_is_dropped_witness :
  exists st',
    on_data Sample.env (Sample.frame (Js.lit "not json") 2) Sample.listening
      = Returned tt st'
    /\ this st' = set_packetCounter 2 (this Sample.listening)
    /\ handler_calls (trace st') = []
    /\ is_destroyed st' = false.
Proof.
  destruct (unparsable_payload_is_dropped Sample.env
              (Sample.frame (Js.lit "not json") 2) Sample.listening 2)
    as (st' & Hrun & Hthis & _ & Hcalls & Hlive & _).
  - vm_compute. reflexivity.
  - vm_compute. reflexivity.
  - exists st'. split; [exact Hrun|]. split; [exact Hthis|].
    split; [rewrite Hcalls | rewrite Hlive]; vm_compute; reflexivity.
Defined.

(** ** The framer *)

Lemma trim_start_nil s :
  Js.trim_start s = [] <-> forallb Js.is_white_space s = true.
Proof.
  induction s as [|c s IH]; cbn [Js.trim_start forallb]; [tauto|].
  destruct (Js.is_white_space c); cbn [andb]; [exact IH|]. split; discriminate.
Qed.

Lemma trim_start_head s c rest :
  Js.trim_start s = c :: rest -> Js.is_white_space c = false.
Proof.
  induction s as [|d s IH]; cbn [Js.trim_start]; [discriminate|].
  destruct (Js.is_white_space d) eqn:E; [exact IH|]. intros [= <- _]. exact E.
Qed.

Lemma trim_empty s :
  Js.eqb (Js.trim s) [] = forallb Js.is_white_space s.
Proof.
  unfold Js.trim.
  destruct (forallb Js.is_white_space s) eqn:Hall.
  - apply trim_start_nil in Hall. rewrite Hall. reflexivity.
  - apply eqb_neq. intros Hnil.
    destruct (Js.trim_start s) as [|c rest] eqn:Hs.
    + apply trim_start_nil in Hs. congruence.
    + apply trim_start_head in Hs as Hc.
      apply (f_equal (@rev _)) in Hnil. rewrite rev_involutive in Hnil.
      cbn [rev] in Hnil. apply trim_start_nil in Hnil.
      rewrite forallb_app in Hnil. apply andb_true_iff in Hnil as [_ Hnil].
      cbn [forallb] in Hnil. rewrite Hc in Hnil. discriminate.
Qed.

Lemma find_nul_absent s : 0 ∉ s -> Js.find [0] s = None.
Proof.
  induction s as [|c s IH]; intros Hs; [reflexivity|].
  cbn [Js.find Js.starts_with].
  destruct (N.eqb_spec 0 c) as [<-|Hne].
  - exfalso. apply Hs. left.
  - cbn [andb]. rewrite IH; [reflexivity|]. intros Hin. apply Hs. right. exact Hin.
Qed.

Lemma find_nul_first pre post :
  0 ∉ pre -> Js.find [0] (pre ++ 0 :: post) = Some (List.length pre).
Proof.
  induction pre as [|c pre IH]; intros Hpre.
  - cbn [app Js.find Js.starts_with]. destruct post; reflexivity.
  - cbn [app Js.find Js.starts_with List.length].
    destruct (N.eqb_spec 0 c) as [<-|Hne].
    + exfalso. apply Hpre. left.
    + cbn [andb]. rewrite IH; [reflexivity|]. intros Hin. apply Hpre. right. exact Hin.
Qed.

(** Every text has its packet, and only one. *)
Lemma Framed_total raw : exists packet, Framed raw packet.
Proof.
  induction raw as [|c raw [packet IH]].
  - exists []. apply framed_whole. apply not_elem_of_nil.
  - destruct (N.eq_dec c 0) as [->|Hc].
    + exists []. apply (framed_before_nul [] raw). apply not_elem_of_nil.
    + destruct IH as [pre post Hpre | raw Hraw].
      * exists (c :: pre). apply (framed_before_nul (c :: pre) post).
        apply not_elem_of_cons. split; [congruence | exact Hpre].
      * exists (c :: raw). apply framed_whole.
        apply not_elem_of_cons. split; [congruence | exact Hraw].
Qed.

Lemma framed_packet raw packet :
  Framed raw packet ->
  (if (Js.indexOf raw TERMINATING_CHARACTER >? -1)%Z
   then Js.substr raw 0 (Js.indexOf raw TERMINATING_CHARACTER)
   else raw) = packet.
Proof.
  unfold Js.indexOf, TERMINATING_CHARACTER.
  intros [pre post Hpre | raw' Hraw].
  - rewrite (find_nul_first _ _ Hpre).
    destruct (Z.gtb_spec (Z.of_nat (List.length pre)) (-1)) as [_|Hle]; [|lia].
    unfold Js.substr, Js.clamp_index. cbn [Z.ltb Z.compare Z.to_nat Nat.min drop].
    replace (Z.to_nat (Z.max (Z.of_nat (List.length pre)) 0)) with (List.length pre) by lia.
    apply take_app_length.
  - rewrite (find_nul_absent _ Hraw). reflexivity.
Qed.

(** Two searches over the same payload that find no match end with the
    same text. *)
Lemma search_unmatched_text remaining : forall i d1 d2 counter md md1 md2,
  payload d1 = payload d2 ->
  search remaining i d1 counter md = inr md1 ->
  search remaining i d2 counter md = inr md2 ->
  md1 = md2.
Proof.
  induction remaining as [|n IH]; intros i d1 d2 counter md md1 md2 Hp;
    cbn [search].
  - congruence.
  - rewrite Hp. destruct (Js.eqb _ (hash d1)); [discriminate|].
    destruct (Js.eqb _ (hash d2)); [discriminate|].
    apply IH. exact Hp.
Qed.

(** A text shorter than a digest leaves no payload. *)
Lemma short_payload (text : JsString) :
  (List.length text < 40)%nat -> payload (splitCommandAndHash text) = [].
Proof.
  intros Hshort. unfold splitCommandAndHash, Js.slice, Js.clamp_index.
  cbn [payload]. change (- (40) <? 0)%Z with true. change (0 <? 0)%Z with false.
  cbv beta iota.
  replace (Z.to_nat (Z.max (Z.of_nat (List.length text) + - (40)) 0))
    with 0%nat by lia.
  reflexivity.
Qed.

(** Two texts shorter than a digest meet the same fate. *)
Lemma short_frames_alike env (text1 text2 : JsString) st :
  (List.length text1 < 40)%nat -> (List.length text2 < 40)%nat ->
  (validated ← validateClientCommandIntegrity env (splitCommandAndHash text1);
   if (validated : bool) then
     match JSON.parse (payload (splitCommandAndHash text1)) with
     | None => ret (JBool false)
     | Some objectFromData => ret objectFromData
     end
   else ret (JBool false)) st
  = (validated ← validateClientCommandIntegrity env (splitCommandAndHash text2);
     if (validated : bool) then
       match JSON.parse (payload (splitCommandAndHash text2)) with
       | None => ret (JBool false)
       | Some objectFromData => ret objectFromData
       end
     else ret (JBool false)) st.
Proof.
  intros H1 H2.
  destruct (short_frame_never_validates text1 INC_PACKET_SEARCHBOUND 0
              (packetCounter (this st)) (Js.lit "undefined") H1) as [md1 E1].
  destruct (short_frame_never_validates text2 INC_PACKET_SEARCHBOUND 0
              (packetCounter (this st)) (Js.lit "undefined") H2) as [md2 E2].
  assert (Hp : payload (splitCommandAndHash text1)
               = payload (splitCommandAndHash text2))
    by (rewrite !short_payload by assumption; reflexivity).
  pose proof (search_unmatched_text _ _ _ _ _ _ _ _ Hp E1 E2) as <-.
  unfold mbind, M_bind, bind.
  rewrite (validate_unmatched _ _ _ _ E1), (validate_unmatched _ _ _ _ E2), Hp.
  reflexivity.
Qed.

(** C9. The text that is split and validated is the logical packet, that
    is the decoded text before its first NUL, or all of it when it has
    none; unless the packet is empty or made of white space only. In
    that case the text is the placeholder of the source, which is the
    JSON object [{"command":"missingSocketDataString"}] (written with a
    space after its colon): it parses to the object with that one
    property, whose JSON text is the placeholder of the specification,
    and [getObjectFromRaw] does on the packet, in every state, what it
    does on a packet that is the placeholder of the specification. *)
Theorem trimmedData_frames env data packet :
  Framed (toString_utf8 data) packet ->
  (forallb Js.is_white_space packet = false -> trimmedData data = packet)
  /\ (forallb Js.is_white_space packet = true ->
        trimmedData data = placeholder
        /\ JSON.parse (trimmedData data) = Some missingSocketDataString
        /\ JSON.stringify missingSocketDataString = canonical_placeholder
        /\ forall st,
             getObjectFromRaw env data st
             = getObjectFromRaw env {| toString_utf8 := canonical_placeholder |} st).
Proof.
  intros Hframed.
  assert (Htext : trimmedData data
                  = if forallb Js.is_white_space packet then placeholder else packet).
  { unfold trimmedData. cbv zeta.
    rewrite (framed_packet _ _ Hframed), trim_empty. reflexivity. }
  split; intros Hblank; rewrite Hblank in Htext; [exact Htext|].
  split; [exact Htext|]. rewrite Htext.
  split; [vm_compute; reflexivity|]. split; [vm_compute; reflexivity|].
  intros st. unfold getObjectFromRaw. cbv zeta. rewrite Htext.
  assert (trimmedData {| toString_utf8 := canonical_placeholder |}
          = canonical_placeholder) as -> by (vm_compute; reflexivity).
  apply short_frames_alike; vm_compute; lia.
Qed.

(** A text with a NUL in it, and a text of white space. *)
Lemma trimmedData_frames_witness :
  trimmedData {| toString_utf8 := Js.lit "ab" ++ 0 :: Js.lit "cd" |} = Js.lit "ab"
  /\ JSON.parse (trimmedData {| toString_utf8 := [32; 9; 160] |})
     = Some missingSocketDataString
  /\ getObjectFromRaw Sample.env {| toString_utf8 := [32; 9; 160] |} Sample.connection
     = getObjectFromRaw Sample.env {| toString_utf8 := canonical_placeholder |}
         Sample.connection.
Proof.
  split.
  - apply (trimmedData_frames Sample.env _ (Js.lit "ab")); [|reflexivity].
    apply (framed_before_nul (Js.lit "ab") (Js.lit "cd")).
    vm_compute. intros Hin. repeat (apply elem_of_cons in Hin as [Hin|Hin]; [discriminate Hin|]).
    apply elem_of_nil in Hin. exact Hin.
  - destruct (trimmedData_frames Sample.env {| toString_utf8 := [32; 9; 160] |}
                [32; 9; 160]) as [_ Hblank].
    + apply framed_whole. intros Hin.
      repeat (apply elem_of_cons in Hin as [Hin|Hin]; [discriminate Hin|]).
      apply elem_of_nil in Hin. exact Hin.
    + destruct (Hblank eq_refl) as (_ & Hparse & _ & Hsame).
      split; [exact Hparse | apply Hsame].
Defined.

(** ** The sequence counter *)

Section Preserves.

Context (R : Z -> Z -> Prop) `{!PreOrder R}.

Lemma preserves_ret {A} (v : A) : preserves R (ret v).
Proof. intros st. reflexivity. Qed.

Lemma preserves_throw {A} e : preserves R (@throw A e).
Proof. intros st. reflexivity. Qed.

Lemma preserves_read : preserves R read.
Proof. intros st. reflexivity. Qed.

Lemma preserves_emit ev : preserves R (emit ev).
Proof. intros st. reflexivity. Qed.

Lemma preserves_lift {A} (r : JsError + A) : preserves R (lift r).
Proof. destruct r; intros st; reflexivity. Qed.

Lemma preserves_update f :
  (forall c, R (packetCounter c) (packetCounter (f c))) ->
  preserves R (update f).
Proof. intros Hf st. apply Hf. Qed.

Lemma preserves_bind {A B} (m : M A) (k : A -> M B) :
  preserves R m -> (forall v, preserves R (k v)) -> preserves R (m ≫= k).
Proof.
  intros Hm Hk st. unfold mbind, M_bind, bind.
  specialize (Hm st). destruct (m st) as [v st'|e st']; cbn [final] in *.
  - etransitivity; [exact Hm | apply Hk].
  - exact Hm.
Qed.

Lemma preserves_when b m : preserves R m -> preserves R (when b m).
Proof. intros Hm. destruct b; [exact Hm | apply preserves_ret]. Qed.

End Preserves.

Ltac preserves_step :=
  first
    [ match goal with
      | |- PreOrder _ => exact _
      | |- forall _, _ => intros ?
      | H : forall _, preserves _ _ |- preserves _ _ => apply H
      | H : forall _ _, preserves _ _ |- preserves _ _ => apply H
      end
    | apply preserves_bind
    | apply preserves_ret
    | apply preserves_throw
    | apply preserves_read
    | apply preserves_emit
    | apply preserves_lift
    | apply preserves_when
    | apply preserves_update; try exact _; intros ?; reflexivity
    | assumption
    | match goal with
      | |- preserves _ (match ?x with _ => _ end) => destruct x
      end ].

Ltac preserves_auto := repeat preserves_step.

Section Operations.

Context (R : Z -> Z -> Prop) `{!PreOrder R}.

Lemma preserves_get key : preserves R (get key).
Proof. unfold get. preserves_auto. Qed.

Lemma preserves_set key value : preserves R (set key value).
Proof. unfold set. preserves_auto. Qed.

Lemma preserves_directSend env command : preserves R (directSend env command).
Proof. unfold directSend. pose proof preserves_get. preserves_auto. Qed.

Lemma preserves_send env command data : preserves R (send env command data).
Proof. unfold send. pose proof preserves_directSend. preserves_auto. Qed.

Lemma preserves_batchSend env commandList : preserves R (batchSend env commandList).
Proof. apply preserves_send. Qed.

Lemma preserves_on eventName handler : preserves R (on eventName handler).
Proof. unfold on. preserves_auto. Qed.

Lemma preserves_onData handler : preserves R (onData handler).
Proof. unfold onData. preserves_auto. Qed.

Lemma preserves_setTickMode onOff : preserves R (setTickMode onOff).
Proof. unfold setTickMode. preserves_auto. Qed.

Lemma preserves_tick env : preserves R (tick env).
Proof. unfold tick. pose proof preserves_directSend. preserves_auto. Qed.

Lemma preserves_destroy env : preserves R (destroy env).
Proof.
  unfold destroy. pose proof preserves_get. pose proof preserves_set.
  preserves_auto.
Qed.

Lemma preserves_forEach_handler handlers arg :
  preserves R (forEach_handler handlers arg).
Proof.
  induction handlers as [|h handlers IH]; cbn [forEach_handler]; preserves_auto.
Qed.

End Operations.

Lemma search_grows remaining i data counter md k :
  (0 <= i)%Z -> search remaining i data counter md = inl k -> (counter <= k)%Z.
Proof.
  intros Hi Hs. apply search_matched in Hs as (j & _ & -> & _).
  apply add_grows. lia.
Qed.

Lemma grows_validate env data :
  preserves Z.le (validateClientCommandIntegrity env data).
Proof.
  intros st. unfold validateClientCommandIntegrity. unfold mbind, M_bind, bind, read.
  destruct (search _ _ _ _ _) as [k|md] eqn:Hs.
  - cbn [final update ret this packetCounter set_packetCounter].
    apply search_grows in Hs; lia.
  - assert (Hfail : preserves Z.le
              (emit (ConsoleError [Js.lit "Could not match packet Id for " ++ md]);;
               destroy env;; ret false)).
    { pose proof (preserves_destroy Z.le env). preserves_auto. }
    exact (Hfail st).
Qed.

Lemma grows_getObjectFromRaw env data : preserves Z.le (getObjectFromRaw env data).
Proof.
  unfold getObjectFromRaw. cbv zeta. pose proof grows_validate. preserves_auto.
Qed.

Lemma grows_on_data env data : preserves Z.le (on_data env data).
Proof.
  unfold on_data. pose proof grows_getObjectFromRaw.
  pose proof (preserves_forEach_handler Z.le).
  repeat first
    [ apply preserves_update; try exact _;
      intros ?; cbn [packetCounter set_packetCounter]; apply add_grows; lia
    | preserves_step ].
Qed.

Lemma step_grows env op st :
  (packetCounter (this st) <= packetCounter (this (step env op st)))%Z.
Proof.
  destruct op; cbn [step].
  - apply grows_on_data.
  - apply (preserves_send Z.le).
  - apply (preserves_directSend Z.le).
  - apply (preserves_batchSend Z.le).
  - apply (preserves_set Z.le).
  - apply (preserves_get Z.le).
  - apply (preserves_on Z.le).
  - apply (preserves_onData Z.le).
  - apply (preserves_setTickMode Z.le).
  - apply (preserves_tick Z.le).
  - apply grows_getObjectFromRaw.
  - apply grows_validate.
  - apply (preserves_destroy Z.le).
Qed.

Lemma run_grows env ops : forall st,
  (packetCounter (this st) <= packetCounter (this (run env ops st)))%Z.
Proof.
  induction ops as [|op ops IH]; intros st; cbn [run]; [lia|].
  etransitivity; [apply (step_grows env op) | apply IH].
Qed.

Lemma constructor_counter env sock uniqueId now :
  packetCounter (this (final (constructor env sock uniqueId now))) = 0%Z.
Proof.
  unfold constructor.
  assert (Hkeep : preserves eq
            (emit (SocketOn sock (Js.lit "data") DataListener);;
             send env (JObj [(Js.lit "command", JStr (Js.lit "connected"))]) None;;
             ret tt)).
  { pose proof (preserves_send eq env). preserves_auto. }
  symmetry.
  match goal with
  | |- _ = packetCounter (this (final (_ ?fresh))) => exact (Hkeep fresh)
  end.
Qed.

(** C10. The counter is 0 when the constructor is done; no operation of
    a connection (the data listener, the validator, [getObjectFromRaw],
    [send], [directSend], [batchSend], [tick], [destroy], [set], [get],
    [on], [onData], [setTickMode]) leaves it smaller than it found it,
    whether the operation returns or throws; and it is never negative
    after any sequence of operations on a constructed connection. *)
Theorem packetCounter_never_decreases :
  (forall env sock uniqueId now,
     packetCounter (this (final (constructor env sock uniqueId now))) = 0%Z)
  /\ (forall env op st,
        (packetCounter (this st) <= packetCounter (this (step env op st)))%Z)
  /\ (forall env sock uniqueId now ops,
        (0 <= packetCounter
                (this (run env ops (final (constructor env sock uniqueId now)))))%Z).
Proof.
  split; [exact constructor_counter|]. split; [exact step_grows|].
  intros env sock uniqueId now ops.
  rewrite <- (constructor_counter env sock uniqueId now) at 1. apply run_grows.
Qed.

(** * Further properties of the code *)

(** ** The digest splitter *)

(** [splitCommandAndHash] cuts a text in two without losing a character:
    the hash is its last 40 characters, or all of it when it is shorter,
    and the payload is what comes before. *)
Theorem splitCommandAndHash_partitions (data : JsString) :
  payload (splitCommandAndHash data) ++ hash (splitCommandAndHash data) = data
  /\ List.length (hash (splitCommandAndHash data))
     = Nat.min 40 (List.length data)
  /\ List.length (payload (splitCommandAndHash data))
     = (List.length data - 40)%nat.
Proof.
  unfold splitCommandAndHash. cbv zeta. cbn [payload hash].
  unfold Js.slice, Js.clamp_index.
  change (- (40) <? 0)%Z with true. change (0 <? 0)%Z with false.
  cbv beta iota.
  match goal with
  | |- context [Z.to_nat (Z.max ?x 0)] =>
      replace (Z.to_nat (Z.max x 0)) with (List.length data - 40)%nat by lia
  end.
  change (Z.to_nat 0) with 0%nat. rewrite Nat.min_0_l, Nat.sub_0_r.
  rewrite !drop_0.
  rewrite (take_ge (drop (List.length data - 40) data))
    by (rewrite length_drop; lia).
  split; [apply take_drop|].
  rewrite length_drop, length_take. lia.
Qed.

(** ** The validator *)

(** The text a search without a match ends with: the one hashed for its
    last candidate. *)
Lemma search_last remaining : forall i data counter md md',
  search remaining i data counter md = inr md' ->
  md' = match remaining with
        | O => md
        | S n => payload data ++ key
                   ++ Double.toString (Double.add counter (i + Z.of_nat n))
        end.
Proof.
  induction remaining as [|n IH]; intros i data counter md md'; cbn [search].
  - intros [= <-]. reflexivity.
  - destruct (Js.eqb _ _); [discriminate|]. intros Hs. apply IH in Hs.
    destruct n as [|n].
    + rewrite Hs, Z.add_0_r. reflexivity.
    + rewrite Hs. do 4 f_equal. lia.
Qed.

(** What the validator does when no candidate matched. *)
Lemma validate_rejected env data st md :
  search INC_PACKET_SEARCHBOUND 0 data (packetCounter (this st)) (Js.lit "undefined")
    = inr md ->
  validateClientCommandIntegrity env data st
  = let logged :=
      {| this := this st;
         trace := trace st
                    ++ [ConsoleError [Js.lit "Could not match packet Id for " ++ md]] |} in
    if is_destroyed st then Returned false logged
    else match global_client env with
         | None => Thrown ReferenceError (mark_destroyed logged)
         | Some None => Thrown TypeError (mark_destroyed logged)
         | Some (Some sock) =>
             Returned false
               {| this := this (mark_destroyed logged);
                  trace := trace logged ++ [SocketDestroy sock] |}
         end.
Proof.
  intros Hs. rewrite (validate_unmatched _ _ _ _ Hs). cbv zeta.
  unfold mbind, M_bind, bind.
  destruct (is_destroyed st) eqn:Hd.
  - rewrite destroy_dead by exact Hd. reflexivity.
  - rewrite destroy_live by exact Hd.
    destruct (global_client env) as [[sock|]|]; reflexivity.
Qed.

(** When the validator returns [true], its search has found a
    candidate with the digest of the packet. *)
Lemma validate_true_is_sound_search env data st st' :
  validateClientCommandIntegrity env data st = Returned true st' ->
  exists k, serverHash (payload data) k = hash data.
Proof.
  intros Hv.
  destruct (search INC_PACKET_SEARCHBOUND 0 data (packetCounter (this st))
              (Js.lit "undefined")) as [k|md] eqn:Hs.
  - apply search_matched in Hs as (j & _ & -> & Hm & _). eauto.
  - rewrite (validate_rejected _ _ _ _ Hs) in Hv. cbv zeta in Hv.
    destruct (is_destroyed st); [discriminate|].
    destruct (global_client env) as [[sock|]|]; discriminate.
Qed.

(** The validator accepts a packet only on a digest that is the SHA-1 of
    its payload, the secret and a candidate of the window: when it
    returns [true], the counter is the first such candidate, the sum of
    the old counter and an index below 100, and nothing else of the
    connection has changed, nor has the trace. *)
Theorem validate_true_is_sound env data st st' :
  validateClientCommandIntegrity env data st = Returned true st' ->
  exists j : nat,
    (j < INC_PACKET_SEARCHBOUND)%nat
    /\ packetCounter (this st') = Double.add (packetCounter (this st)) (Z.of_nat j)
    /\ hash data = serverHash (payload data) (packetCounter (this st'))
    /\ (forall j' : nat, (j' < j)%nat ->
          serverHash (payload data)
            (Double.add (packetCounter (this st)) (Z.of_nat j')) <> hash data)
    /\ (packetCounter (this st) <= packetCounter (this st'))%Z
    /\ set_packetCounter (packetCounter (this st)) (this st') = this st
    /\ trace st' = trace st.
Proof.
  intros Hv.
  destruct (search INC_PACKET_SEARCHBOUND 0 data (packetCounter (this st))
              (Js.lit "undefined")) as [k|md] eqn:Hs.
  - rewrite (validate_matched _ _ _ _ Hs) in Hv. injection Hv as <-.
    apply search_matched in Hs as (j & Hj & -> & Hm & Hfirst).
    cbn [this trace packetCounter set_packetCounter].
    exists j. split; [exact Hj|]. split; [reflexivity|].
    split; [symmetry; exact Hm|]. split; [exact Hfirst|].
    split; [apply add_grows; lia|]. split; [|reflexivity].
    destruct st as [[]]. reflexivity.
  - rewrite (validate_rejected _ _ _ _ Hs) in Hv. cbv zeta in Hv.
    destruct (is_destroyed st); [discriminate|].
    destruct (global_client env) as [[sock|]|]; discriminate.
Qed.

(** The payload [{"command":"ping"}] signed for 3, accepted by a fresh
    connection. *)
Lemma validate_true_is_sound_witness :
  exists j : nat,
    (j < INC_PACKET_SEARCHBOUND)%nat
    /\ hash (splitCommandAndHash (signed_frame (Sample.command_text "ping") 3))
       = serverHash (payload (splitCommandAndHash
                                (signed_frame (Sample.command_text "ping") 3)))
                    3.
Proof.
  assert (Hv : validateClientCommandIntegrity Sample.env
                 (splitCommandAndHash (signed_frame (Sample.command_text "ping") 3))
                 Sample.connection
               = Returned true
                   {| this := set_packetCounter 3 (this Sample.connection);
                      trace := trace Sample.connection |})
    by (vm_compute; reflexivity).
  destruct (validate_true_is_sound _ _ _ _ Hv) as (j & Hj & _ & Hm & _).
  exists j. split; [exact Hj | exact Hm].
Defined.

(** When no candidate of the window has the digest of the packet, the
    validator does not return [true]: it leaves the counter, the
    handlers and the queue as they were, writes nothing to any
    transport, leaves the connection destroyed, and prints on the
    console the text it hashed last, which is the payload followed by
    the secret key and the last candidate. *)
Theorem validate_rejects_unmatched env data st :
  (forall j : nat, (j < INC_PACKET_SEARCHBOUND)%nat ->
     serverHash (payload data) (Double.add (packetCounter (this st)) (Z.of_nat j))
       <> hash data) ->
  let outcome := validateClientCommandIntegrity env data st in
  (forall st', outcome <> Returned true st')
  /\ is_destroyed (final outcome) = true
  /\ packetCounter (this (final outcome)) = packetCounter (this st)
  /\ dataHandlers (this (final outcome)) = dataHandlers (this st)
  /\ tickModeQueue (this (final outcome)) = tickModeQueue (this st)
  /\ handler_calls (trace (final outcome)) = handler_calls (trace st)
  /\ (forall sock, writes sock (trace (final outcome)) = writes sock (trace st))
  /\ exists tail,
       trace (final outcome)
       = trace st
           ++ ConsoleError
                [Js.lit "Could not match packet Id for " ++ payload data ++ key
                   ++ Double.toString (Double.add (packetCounter (this st)) 99)]
              :: tail.
Proof.
  intros Hfree outcome.
  destruct (search INC_PACKET_SEARCHBOUND 0 data (packetCounter (this st))
              (Js.lit "undefined")) as [k|md] eqn:Hs.
  { exfalso. apply search_matched in Hs as (j & Hj & -> & Hm & _).
    exact (Hfree j Hj Hm). }
  pose proof (search_last _ _ _ _ _ _ Hs) as Hmd.
  cbn [INC_PACKET_SEARCHBOUND] in Hmd. change (0 + Z.of_nat 99)%Z with 99%Z in Hmd.
  subst outcome. rewrite (validate_rejected _ _ _ _ Hs). cbv zeta. subst md.
  destruct (is_destroyed st) eqn:Hd;
    [|destruct (global_client env) as [[sock|]|]];
    cbn [final this trace mark_destroyed set_data packetCounter dataHandlers
         tickModeQueue].
  all: split; [intros st'; discriminate|].
  all: split; [first [exact Hd | apply mark_destroyed_is_destroyed
                      | unfold is_destroyed; cbn [this data set_data];
                        rewrite lookup_insert; reflexivity]|].
  all: split; [reflexivity|]. all: split; [reflexivity|].
  all: split; [reflexivity|].
  all: split; [rewrite ?handler_calls_app; cbn [handler_calls];
               rewrite ?app_nil_r; reflexivity|].
  all: split; [intros s; rewrite ?writes_app; cbn [writes];
               rewrite ?app_nil_r; reflexivity|].
  - exists []. reflexivity.
  - exists [SocketDestroy sock]. rewrite <- app_assoc. reflexivity.
  - exists []. reflexivity.
  - exists []. reflexivity.
Qed.

(** The payload [{"command":"ping"}] signed for 100 is refused by a
    fresh connection, whose counter stays at 0. *)
Lemma validate_rejects_unmatched_witness :
  is_destroyed
    (final (validateClientCommandIntegrity Sample.env
              (splitCommandAndHash (signed_frame (Sample.command_text "ping") 100))
              Sample.connection)) = true
  /\ packetCounter
       (this (final (validateClientCommandIntegrity Sample.env
                       (splitCommandAndHash
                          (signed_frame (Sample.command_text "ping") 100))
                       Sample.connection)))
     = packetCounter (this Sample.connection).
Proof.
  destruct (validate_rejects_unmatched Sample.env
              (splitCommandAndHash (signed_frame (Sample.command_text "ping") 100))
              Sample.connection) as (_ & Hdead & Hcounter & _).
  - intros j Hj.
    assert (Hall : forallb
              (fun j => negb (Js.eqb
                 (serverHash
                    (payload (splitCommandAndHash
                                (signed_frame (Sample.command_text "ping") 100)))
                    (Double.add (packetCounter (this Sample.connection)) (Z.of_nat j)))
                 (hash (splitCommandAndHash
                          (signed_frame (Sample.command_text "ping") 100)))))
              (seq 0 INC_PACKET_SEARCHBOUND) = true)
      by (vm_compute; reflexivity).
    rewrite forallb_forall in Hall.
    specialize (Hall j ltac:(apply in_seq; lia)).
    apply negb_true_iff, eqb_neq in Hall. exact Hall.
  - split; [exact Hdead | exact Hcounter].
Defined.

(** ** The inbound path *)

(** A packet shorter than a digest is all hash and no payload: the
    listener invokes no handler for it and leaves the counter, the
    handlers and the queue as they were; nothing is written, and the
    connection is destroyed afterwards. This is what becomes of an empty
    or blank packet, which the placeholder replaces. *)
Theorem short_packet_is_never_dispatched env data st :
  (List.length (trimmedData data) < 40)%nat ->
  let outcome := on_data env data st in
  handler_calls (trace (final outcome)) = handler_calls (trace st)
  /\ packetCounter (this (final outcome)) = packetCounter (this st)
  /\ dataHandlers (this (final outcome)) = dataHandlers (this st)
  /\ tickModeQueue (this (final outcome)) = tickModeQueue (this st)
  /\ (forall sock, writes sock (trace (final outcome)) = writes sock (trace st))
  /\ is_destroyed (final outcome) = true.
Proof.
  intros Hshort outcome.
  destruct (short_frame_never_validates (trimmedData data) INC_PACKET_SEARCHBOUND 0
              (packetCounter (this st)) (Js.lit "undefined") Hshort) as [md Hs].
  assert (Hfree : forall j : nat, (j < INC_PACKET_SEARCHBOUND)%nat ->
            serverHash (payload (splitCommandAndHash (trimmedData data)))
              (Double.add (packetCounter (this st)) (Z.of_nat j))
            <> hash (splitCommandAndHash (trimmedData data))).
  { intros j Hj. exact (search_unmatched _ _ _ _ _ _ Hs j Hj). }
  destruct (validate_rejects_unmatched env _ st Hfree)
    as (Hnot & Hdead & Hcounter & Hhandlers & Hqueue & Hcalls & Hwrites & _).
  subst outcome. unfold on_data, getObjectFromRaw. cbv zeta.
  unfold mbind, M_bind, bind.
  destruct (validateClientCommandIntegrity env _ st) as [[] st1|e st1] eqn:Hv;
    cbn [final] in *.
  - exfalso. exact (Hnot st1 eq_refl).
  - cbn [ret is_false].
    destruct (toss_log_quiet env) as (Htoss & _ & Htossw).
    assert (Hrun : when (DEBUG_MODE env)
                     (emit (ConsoleError
                        [Js.lit "Tossing out packet as does not have integrity."])) st1
                   = Returned tt {| this := this st1;
                                    trace := trace st1 ++ toss_log env |}).
    { unfold toss_log, when, emit, ret. destruct (DEBUG_MODE env); cbn [this trace].
      - reflexivity.
      - rewrite app_nil_r. destruct st1; reflexivity. }
    unfold ret. rewrite Hrun. cbn [final this trace].
    split; [rewrite handler_calls_app, Htoss, app_nil_r; exact Hcalls|].
    split; [exact Hcounter|]. split; [exact Hhandlers|]. split; [exact Hqueue|].
    split; [intros sock; rewrite writes_app, Htossw, app_nil_r; apply Hwrites|].
    exact Hdead.
  - cbn [final]. repeat split; assumption.
Qed.

(** A buffer of white space. *)
Lemma short_packet_is_never_dispatched_witness :
  handler_calls
    (trace (final (on_data Sample.env {| toString_utf8 := [32; 9] |} Sample.listening)))
  = handler_calls (trace Sample.listening)
  /\ is_destroyed
       (final (on_data Sample.env {| toString_utf8 := [32; 9] |} Sample.listening))
     = true.
Proof.
  destruct (short_packet_is_never_dispatched Sample.env
              {| toString_utf8 := [32; 9] |} Sample.listening)
    as (Hcalls & _ & _ & _ & _ & Hdead).
  - vm_compute. lia.
  - split; [exact Hcalls | exact Hdead].
Defined.



(** What follows the first NUL of a buffer is never looked at: two
    buffers that agree up to it are treated alike, so a second packet in
    the same read is lost. *)
Theorem text_after_nul_is_ignored env (pre post post' : JsString) st :
  0 ∉ pre ->
  trimmedData {| toString_utf8 := pre ++ 0 :: post |}
    = trimmedData {| toString_utf8 := pre ++ 0 :: post' |}
  /\ on_data env {| toString_utf8 := pre ++ 0 :: post |} st
     = on_data env {| toString_utf8 := pre ++ 0 :: post' |} st
  /\ on_data env {| toString_utf8 := pre ++ 0 :: post |} st
     = on_data env {| toString_utf8 := pre |} st.
Proof.
  intros Hpre.
  assert (Hcut : forall tail,
            trimmedData {| toString_utf8 := pre ++ 0 :: tail |}
            = trimmedData {| toString_utf8 := pre |}).
  { intros tail. unfold trimmedData. cbn [toString_utf8]. cbv zeta.
    rewrite (framed_packet _ _ (framed_before_nul pre tail Hpre)).
    rewrite (framed_packet _ _ (framed_whole pre Hpre)). reflexivity. }
  split; [rewrite !Hcut; reflexivity|].
  unfold on_data, getObjectFromRaw. cbv zeta. rewrite !Hcut.
  split; reflexivity.
Qed.

(** Two packets in one read: only [ab] is processed. *)
Lemma text_after_nul_is_ignored_witness :
  on_data Sample.env {| toString_utf8 := Js.lit "ab" ++ 0 :: Js.lit "cd" |}
    Sample.listening
  = on_data Sample.env {| toString_utf8 := Js.lit "ab" |} Sample.listening.
Proof.
  apply (text_after_nul_is_ignored Sample.env (Js.lit "ab") (Js.lit "cd") []).
  vm_compute. intros Hin.
  repeat (apply elem_of_cons in Hin as [Hin|Hin]; [discriminate Hin|]).
  apply elem_of_nil in Hin. exact Hin.
Defined.

(** ** The outbound path *)


(** Out of tick mode, [send(command)] on a connection that is not
    destroyed writes the command at once: one frame, the header followed
    by the JSON text of the command when that text does not contain the
    header; the connection itself is unchanged and the call returns
    [undefined]. *)
Theorem send_writes_at_once env st command header :
  tickMode (this st) = false ->
  is_destroyed st = false ->
  process_env env !! Js.lit "PATCH_HEADER" = Some header ->
  header <> [] ->
  Js.find header (JSON.stringify command) = None ->
  exists st',
    send env command None st = Returned undefined st'
    /\ this st' = this st
    /\ writes (socket (this st)) (trace st')
       = writes (socket (this st)) (trace st) ++ [header ++ JSON.stringify command]
    /\ (forall sock, closes sock (trace st') = closes sock (trace st))
    /\ handler_calls (trace st') = handler_calls (trace st).
Proof.
  intros Htick Hlive Hheader Hne Habsent.
  pose proof (getenv_set _ _ _ Hheader Hne) as Henv.
  unfold send. unfold mbind, M_bind, bind. cbn [resolve_data lift ret].
  unfold read. rewrite Htick. rewrite (directSend_live _ _ _ _ Hlive Henv).
  eexists. split; [reflexivity|]. cbn [this trace].
  unfold outbound_frame. cbn [to_string]. rewrite (replace_absent _ _ Habsent).
  split; [reflexivity|].
  assert (Hlog : sending_log env st (header ++ JSON.stringify command) = []
                 \/ exists args, sending_log env st (header ++ JSON.stringify command)
                                 = [ConsoleInfo args]).
  { unfold sending_log. destruct (DEBUG_MODE env); eauto. }
  split; [|split].
  - rewrite !writes_app, sending_log_writes, app_nil_r. cbn [writes].
    rewrite Nat.eqb_refl. reflexivity.
  - intros sock. rewrite !closes_app.
    destruct Hlog as [-> | [args ->]]; cbn [closes]; lia.
  - rewrite !handler_calls_app.
    destruct Hlog as [-> | [args ->]]; cbn [handler_calls]; rewrite !app_nil_r;
      reflexivity.
Qed.

Lemma send_writes_at_once_witness :
  exists st',
    send Sample.env (Sample.command "ping") None Sample.connection
      = Returned undefined st'
    /\ writes (socket (this Sample.connection)) (trace st')
       = writes (socket (this Sample.connection)) (trace Sample.connection)
           ++ [Js.lit "AB" ++ Sample.command_text "ping"].
Proof.
  destruct (send_writes_at_once Sample.env Sample.connection (Sample.command "ping")
              (Js.lit "AB")) as (st' & Hsend & _ & Hwrites & _).
  - reflexivity.
  - vm_compute. reflexivity.
  - vm_compute. reflexivity.
  - discriminate.
  - vm_compute. reflexivity.
  - exists st'. split; [exact Hsend|]. rewrite Hwrites. vm_compute. reflexivity.
Defined.

(** [new Client(socket)] with the header configured: the data listener
    is registered on the socket first, then the greeting
    [{"command":"connected"}] is written to it after the header, and the
    connection starts with no handler, an empty store, tick mode off, an
    empty queue and the counter at 0. *)
Theorem constructor_greets env sock uniqueId now header :
  process_env env !! Js.lit "PATCH_HEADER" = Some header ->
  header <> [] ->
  Js.find header (Sample.command_text "connected") = None ->
  exists st,
    constructor env sock uniqueId now = Returned tt st
    /\ this st
       = {| socket := sock; dataHandlers := []; clientId := uniqueId;
            created := now; data := ∅; tickMode := false; tickModeQueue := [];
            packetCounter := 0%Z |}
    /\ (exists log,
          trace st = SocketOn sock (Js.lit "data") DataListener :: log
                       ++ [SocketWrite sock (header ++ Sample.command_text "connected")]
          /\ (log = [] \/ exists args, log = [ConsoleInfo args]))
    /\ is_destroyed st = false.
Proof.
  intros Hheader Hne Habsent.
  pose proof (getenv_set _ _ _ Hheader Hne) as Henv.
  unfold constructor. unfold mbind, M_bind, bind, emit. cbn [this trace app].
  unfold send. unfold mbind, M_bind, bind. cbn [resolve_data lift ret].
  unfold read. cbn [this tickMode].
  rewrite (directSend_live _ _ _ (Some header));
    [|unfold is_destroyed; cbn [this data]; rewrite lookup_empty; reflexivity
     |exact Henv].
  unfold ret. eexists. split; [reflexivity|]. cbn [this trace].
  split; [reflexivity|]. split; [|reflexivity].
  unfold outbound_frame. cbn [to_string].
  assert (Htext : JSON.stringify (JObj [(Js.lit "command", JStr (Js.lit "connected"))])
                  = Sample.command_text "connected") by (vm_compute; reflexivity).
  rewrite Htext, (replace_absent _ _ Habsent).
  eexists. split; [cbn [app]; reflexivity|].
  unfold sending_log. destruct (DEBUG_MODE env); eauto.
Qed.

Lemma constructor_greets_witness :
  exists st,
    constructor Sample.env 1%nat (Js.lit "1") 0 = Returned tt st
    /\ packetCounter (this st) = 0%Z
    /\ writes 1%nat (trace st) = [Js.lit "AB" ++ Sample.command_text "connected"].
Proof.
  destruct (constructor_greets Sample.env 1%nat (Js.lit "1") 0%Z (Js.lit "AB"))
    as (st & Hnew & Hthis & (log & Htrace & Hlog) & _).
  - reflexivity.
  - discriminate.
  - vm_compute. reflexivity.
  - exists st. split; [exact Hnew|]. rewrite Hthis, Htrace.
    split; [reflexivity|].
    destruct Hlog as [-> | [args ->]]; reflexivity.
Defined.

(** [new Client(socket)] without [PATCH_HEADER] throws the error of
    [getenv] out of the constructor: the data listener is registered
    already, and nothing is written. *)
Theorem constructor_needs_header env sock uniqueId now :
  process_env env !! Js.lit "PATCH_HEADER" = None ->
  exists st,
    constructor env sock uniqueId now
      = Thrown (Error (Js.lit "Value for environment variable PATCH_HEADER required ")) st
    /\ trace st = [SocketOn sock (Js.lit "data") DataListener]
    /\ packetCounter (this st) = 0%Z.
Proof.
  intros Hh.
  assert (Henv : getenv env (Js.lit "PATCH_HEADER") None
                 = inl (Error (Js.lit "Value for environment variable PATCH_HEADER required "))).
  { unfold getenv. rewrite Hh. reflexivity. }
  unfold constructor. unfold mbind, M_bind, bind, emit. cbn [this trace app].
  unfold send. unfold mbind, M_bind, bind. cbn [resolve_data lift ret].
  unfold read. cbn [this tickMode].
  erewrite directSend_unconfigured;
    [|unfold is_destroyed; cbn [this data]; rewrite lookup_empty; reflexivity
     |exact Henv].
  eexists. split; [reflexivity|]. split; reflexivity.
Qed.

Lemma constructor_needs_header_witness :
  exists st,
    constructor {| process_env := ∅; global_client := None |} 1%nat (Js.lit "1") 0
      = Thrown (Error (Js.lit "Value for environment variable PATCH_HEADER required ")) st
    /\ trace st = [SocketOn 1%nat (Js.lit "data") DataListener]
    /\ packetCounter (this st) = 0%Z.
Proof.
  apply (constructor_needs_header {| process_env := ∅; global_client := None |}).
  reflexivity.
Defined.

(** With [PATCH_HEADER] set to the empty string, [getenv] hands back
    [undefined] without throwing, and a frame starts with the text
    [undefined], the first occurrence of which is taken out of the JSON
    text. *)
Theorem empty_header_is_undefined env st command :
  process_env env !! Js.lit "PATCH_HEADER" = Some [] ->
  is_destroyed st = false ->
  getenv env (Js.lit "PATCH_HEADER") None = inr None
  /\ exists st',
       directSend env command st = Returned (Some (JBool true)) st'
       /\ writes (socket (this st)) (trace st')
          = writes (socket (this st)) (trace st)
              ++ [Js.lit "undefined"
                    ++ Js.replace_with_empty (JSON.stringify command)
                         (Js.lit "undefined")].
Proof.
  intros Hh Hlive.
  assert (Henv : getenv env (Js.lit "PATCH_HEADER") None = inr None).
  { unfold getenv. rewrite Hh. reflexivity. }
  split; [exact Henv|].
  rewrite (directSend_live _ _ _ _ Hlive Henv).
  eexists. split; [reflexivity|]. cbn [trace].
  rewrite !writes_app, sending_log_writes, app_nil_r. cbn [writes].
  rewrite Nat.eqb_refl. reflexivity.
Qed.

Lemma empty_header_is_undefined_witness :
  exists st',
    directSend {| process_env := {[ Js.lit "PATCH_HEADER" := [] ]};
                  global_client := None |}
      (JStr (Js.lit "undefined")) Sample.connection
      = Returned (Some (JBool true)) st'
    /\ writes (socket (this Sample.connection)) (trace st')
       = writes (socket (this Sample.connection)) (trace Sample.connection)
           ++ [Js.lit "undefined" ++ [34; 34]].
Proof.
  destruct (empty_header_is_undefined
              {| process_env := {[ Js.lit "PATCH_HEADER" := [] ]};
                 global_client := None |}
              Sample.connection (JStr (Js.lit "undefined")))
    as (_ & st' & Hsend & Hwrites).
  - reflexivity.
  - vm_compute. reflexivity.
  - exists st'. split; [exact Hsend|]. rewrite Hwrites. vm_compute. reflexivity.
Defined.

(** ** [getenv] *)


(** ** The destroyed flag *)

(** The flag that stops the writes is an entry of the store that [set]
    and [get] serve: after [destroy()] the application reads it with
    [get("destroyed")], and [set("destroyed", false)] puts the
    connection back in use, its next [directSend] writing a frame. *)
Theorem destroyed_flag_is_a_store_entry env st command header :
  is_destroyed st = true ->
  getenv env (Js.lit "PATCH_HEADER") None = inr header ->
  directSend env command st = Returned (Some (JBool false)) st
  /\ (exists v, get (Js.lit "destroyed") st = Returned (Some v) st
                /\ JSON.truthy (Some v) = true)
  /\ exists st1 st2,
       set (Js.lit "destroyed") (JBool false) st = Returned undefined st1
       /\ is_destroyed st1 = false
       /\ directSend env command st1 = Returned (Some (JBool true)) st2
       /\ writes (socket (this st)) (trace st2)
          = writes (socket (this st)) (trace st) ++ [outbound_frame header command].
Proof.
  intros Hdead Henv. split; [apply directSend_dead, Hdead|]. split.
  - unfold is_destroyed in Hdead. unfold get. unfold_monad.
    destruct (data (this st) !! Js.lit "destroyed") as [v|] eqn:Hv;
      [|discriminate Hdead].
    exists v. split; [reflexivity | exact Hdead].
  - unfold set. unfold_monad.
    eexists. eexists. split; [reflexivity|].
    assert (Hlive : is_destroyed
              {| this := set_data (<[Js.lit "destroyed" := JBool false]> (data (this st)))
                                  (this st);
                 trace := trace st |} = false).
    { unfold is_destroyed. cbn [this data set_data]. rewrite lookup_insert.
      reflexivity. }
    split; [exact Hlive|].
    rewrite (directSend_live _ _ _ _ Hlive Henv).
    split; [reflexivity|]. cbn [trace this socket set_data].
    rewrite !writes_app, sending_log_writes, app_nil_r. cbn [writes].
    rewrite Nat.eqb_refl. reflexivity.
Qed.

Lemma destroyed_flag_is_a_store_entry_witness :
  exists st1 st2,
    set (Js.lit "destroyed") (JBool false) Sample.destroyed = Returned undefined st1
    /\ is_destroyed st1 = false
    /\ directSend Sample.env (Sample.command "ping") st1
       = Returned (Some (JBool true)) st2.
Proof.
  destruct (destroyed_flag_is_a_store_entry Sample.env Sample.destroyed
              (Sample.command "ping") (Some (Js.lit "AB")))
    as (_ & _ & st1 & st2 & Hset & Hlive & Hsend & _).
  - vm_compute. reflexivity.
  - vm_compute. reflexivity.
  - exists st1, st2. split; [exact Hset|]. split; [exact Hlive | exact Hsend].
Defined.

(** ** Batches *)

(** In tick mode two calls of [batchSend] write nothing, and the
    [tick()] that follows sends the commands of both lists as one batch,
    in order: one frame, the header followed by the JSON text of
    [{batch: true, commands: [...]}] when that text does not contain the
    header. *)
Theorem batches_merge_on_tick env st (l1 l2 : list Json) header :
  l1 ++ l2 <> [] ->
  is_destroyed st = false ->
  tickMode (this st) = true ->
  tickModeQueue (this st) = [] ->
  process_env env !! Js.lit "PATCH_HEADER" = Some header ->
  header <> [] ->
  Js.find header (JSON.stringify (batch_of (JArr (l1 ++ l2)))) = None ->
  exists st1 st2 st3,
    batchSend env (JArr l1) st = Returned undefined st1
    /\ batchSend env (JArr l2) st1 = Returned undefined st2
    /\ trace st2 = trace st
    /\ tickModeQueue (this st2) = l1 ++ l2
    /\ tick env st2 = Returned undefined st3
    /\ writes (socket (this st)) (trace st3)
       = writes (socket (this st)) (trace st)
           ++ [header ++ JSON.stringify (batch_of (JArr (l1 ++ l2)))]
    /\ tickModeQueue (this st3) = [].
Proof.
  intros Hsome Hlive Htick Hq Hheader Hne Habsent.
  pose proof (getenv_set _ _ _ Hheader Hne) as Henv.
  assert (Hbatch : forall l st0, tickMode (this st0) = true ->
            batchSend env (JArr l) st0
            = Returned undefined
                {| this := set_tickModeQueue (tickModeQueue (this st0) ++ l) (this st0);
                   trace := trace st0 |}).
  { intros l st0 Ht. unfold batchSend, batch_of.
    eapply send_flattens; [exact Ht | reflexivity | reflexivity | reflexivity]. }
  rewrite (Hbatch l1 st Htick), Hq. cbn [app].
  destruct (l1 ++ l2) as [|q0 q] eqn:Hl; [contradiction|].
  eexists. eexists. eexists. split; [reflexivity|].
  rewrite Hbatch by exact Htick.
  cbn [this trace tickModeQueue set_tickModeQueue]. rewrite Hl.
  split; [reflexivity|]. split; [reflexivity|]. split; [reflexivity|].
  split.
  { apply (tick_flushes env _ (Some header) q0 q);
      [exact Htick | reflexivity | exact Hlive | exact Henv]. }
  cbn [trace this socket set_tickModeQueue tickModeQueue].
  split; [|reflexivity].
  rewrite !writes_app, sending_log_writes, app_nil_r. cbn [writes].
  rewrite Nat.eqb_refl. unfold outbound_frame. cbn [to_string].
  rewrite (replace_absent _ _ Habsent). reflexivity.
Qed.

Lemma batches_merge_on_tick_witness :
  exists st1 st2 st3,
    batchSend Sample.env (JArr [Sample.command "a"; Sample.command "b"]) Sample.ticking
      = Returned undefined st1
    /\ batchSend Sample.env (JArr [Sample.command "c"]) st1 = Returned undefined st2
    /\ tick Sample.env st2 = Returned undefined st3
    /\ writes (socket (this Sample.ticking)) (trace st3)
       = writes (socket (this Sample.ticking)) (trace Sample.ticking)
           ++ [Js.lit "AB{" ++ Js.quoted "batch" ++ Js.lit ":true,"
                 ++ Js.quoted "commands" ++ Js.lit ":["
                 ++ Sample.command_text "a" ++ Js.lit ","
                 ++ Sample.command_text "b" ++ Js.lit ","
                 ++ Sample.command_text "c" ++ Js.lit "]}"].
Proof.
  destruct (batches_merge_on_tick Sample.env Sample.ticking
              [Sample.command "a"; Sample.command "b"] [Sample.command "c"]
              (Js.lit "AB"))
    as (st1 & st2 & st3 & H1 & H2 & _ & _ & Htick & Hwrites & _).
  - discriminate.
  - vm_compute. reflexivity.
  - reflexivity.
  - reflexivity.
  - vm_compute. reflexivity.
  - discriminate.
  - vm_compute. reflexivity.
  - exists st1, st2, st3. split; [exact H1|]. split; [exact H2|].
    split; [exact Htick|]. rewrite Hwrites. vm_compute. reflexivity.
Defined.

(** ** Handlers *)

(** [onData] keeps the handlers in the order of their registration, and
    registering them touches neither the trace nor the counter, the
    queue or the store. *)
Theorem handlers_are_kept_in_registration_order env (hs : list HandlerId) st :
  dataHandlers (this (run env (List.map OpOnData hs) st)) = dataHandlers (this st) ++ hs
  /\ trace (run env (List.map OpOnData hs) st) = trace st
  /\ packetCounter (this (run env (List.map OpOnData hs) st)) = packetCounter (this st)
  /\ tickModeQueue (this (run env (List.map OpOnData hs) st)) = tickModeQueue (this st)
  /\ data (this (run env (List.map OpOnData hs) st)) = data (this st).
Proof.
  revert st. induction hs as [|h hs IH]; intros st; cbn [List.map run step].
  - rewrite app_nil_r. repeat split.
  - destruct (IH (final (onData h st))) as (Hh & Ht & Hc & Hq & Hd).
    rewrite Hh, Ht, Hc, Hq, Hd. unfold onData. unfold_monad.
    cbn [final this trace dataHandlers packetCounter tickModeQueue data
         set_dataHandlers].
    rewrite <- app_assoc. repeat split.
Qed.

(** ** Digests and candidates *)

(** The candidates of a search are hashed from different texts: up to
    2^53, two numbers are printed alike only when they are equal. *)
Theorem candidates_are_hashed_from_distinct_texts (p : JsString) (m n : Z) :
  (Z.abs m <= 2 ^ 53)%Z -> (Z.abs n <= 2 ^ 53)%Z ->
  m <> n ->
  p ++ key ++ Double.toString m <> p ++ key ++ Double.toString n.
Proof.
  intros Hm Hn Hne Heq. rewrite !toString_exact in Heq by assumption.
  apply app_inv_head, app_inv_head in Heq. apply Hne, decimal_injective, Heq.
Qed.

Lemma candidates_are_hashed_from_distinct_texts_witness :
  Sample.command_text "ping" ++ key ++ Double.toString 7
  <> Sample.command_text "ping" ++ key ++ Double.toString 8.
Proof.
  apply (candidates_are_hashed_from_distinct_texts (Sample.command_text "ping") 7 8).
  - vm_compute. discriminate.
  - vm_compute. discriminate.
  - discriminate.
Defined.

(** A digest is 40 characters among [0-9a-f]. *)
Lemma hex_digit_lower_case n :
  n < 16 ->
  (48 <= Sha1.hex_digit n /\ Sha1.hex_digit n <= 57)
  \/ (97 <= Sha1.hex_digit n /\ Sha1.hex_digit n <= 102).
Proof.
  intros Hn. unfold Sha1.hex_digit. destruct (N.ltb_spec n 10); lia.
Qed.

Lemma hex8_lower_case w :
  Forall (fun c => (48 <= c /\ c <= 57) \/ (97 <= c /\ c <= 102)) (Sha1.hex8 w).
Proof.
  unfold Sha1.hex8. apply List.Forall_forall. intros c Hc.
  apply in_map_iff in Hc as (i & <- & _).
  apply hex_digit_lower_case.
  change 15 with (N.ones 4). rewrite N.land_ones.
  apply N.mod_lt. discriminate.
Qed.

Lemma sha1_hex_lower_case s :
  Forall (fun c => (48 <= c /\ c <= 57) \/ (97 <= c /\ c <= 102)) (sha1_hex s).
Proof.
  unfold sha1_hex. destruct (Sha1.digest (Js.utf8 s)) as [[[[a b] c] d] e].
  unfold Sha1.hex. repeat (apply Forall_app; split); apply hex8_lower_case.
Qed.

(** The comparison of digests is one of strings: a packet is accepted
    only when it ends in 40 characters among [0-9a-f], so that a digest
    written in upper case, or cut short, is refused. *)
Theorem accepted_digest_is_lower_case_hex env data st st' :
  validateClientCommandIntegrity env data st = Returned true st' ->
  List.length (hash data) = 40%nat
  /\ Forall (fun c => (48 <= c /\ c <= 57) \/ (97 <= c /\ c <= 102)) (hash data).
Proof.
  intros Hv. destruct (validate_true_is_sound_search env data st st' Hv) as [k Hk].
  rewrite <- Hk. unfold serverHash.
  split; [apply sha1_hex_length | apply sha1_hex_lower_case].
Qed.

Lemma accepted_digest_is_lower_case_hex_witness :
  List.length
    (hash (splitCommandAndHash (signed_frame (Sample.command_text "ping") 3)))
  = 40%nat.
Proof.
  assert (Hv : validateClientCommandIntegrity Sample.env
                 (splitCommandAndHash (signed_frame (Sample.command_text "ping") 3))
                 Sample.connection
               = Returned true
                   {| this := set_packetCounter 3 (this Sample.connection);
                      trace := trace Sample.connection |})
    by (vm_compute; reflexivity).
  exact (proj1 (accepted_digest_is_lower_case_hex _ _ _ _ Hv)).
Defined.

(** ** The counter as a number *)

Section Numbers.

Local Open Scope Z_scope.

(** Rounding lands on a double. *)
Lemma round_nonneg_idempotent a :
  0 <= a -> Double.round (Double.round a) = Double.round a.
Proof.
  intros Ha. rewrite (round_nonneg a Ha).
  destruct (ulp_exponent a Ha) as (He & Hu & Hhigh & _).
  set (e := Z.max 0 (Z.log2 a - 52)) in *.
  pose proof (ulp_pos a) as Hpos.
  destruct (nearest_multiple a (Double.ulp a)) as [q Hq].
  destruct (nearest_between a (Double.ulp a) Hpos) as [Hlo Hhi].
  set (y := Double.nearest a (Double.ulp a)) in *.
  assert (Hdiv : 0 <= a / Double.ulp a) by (apply Z.div_pos; lia).
  assert (Hy0 : 0 <= y) by nia.
  assert (Hquot : a / Double.ulp a < 2 ^ 53).
  { apply Z.div_lt_upper_bound; [lia|]. rewrite Hu, <- Z.pow_add_r by lia.
    exact Hhigh. }
  assert (Hytop : y <= 2 ^ (e + 53)).
  { rewrite Z.pow_add_r by lia. rewrite <- Hu. nia. }
  rewrite (round_nonneg y Hy0).
  destruct (Z.eq_dec y 0) as [Hz|Hz]; [rewrite Hz; reflexivity|].
  destruct (ulp_exponent y Hy0) as (He' & Hu' & _ & Hlow').
  set (e' := Z.max 0 (Z.log2 y - 52)) in *.
  destruct (Z.eq_dec y (2 ^ (e + 53))) as [Htop|Htop].
  - assert (e' = e + 1).
    { unfold e'. rewrite Htop, Z.log2_pow2 by lia. lia. }
    replace y with (2 ^ 52 * Double.ulp y) at 1 3.
    + apply nearest_of_multiple, ulp_pos.
    + rewrite Hu', Htop, <- Z.pow_add_r by lia. f_equal. lia.
  - assert (e' <= e).
    { unfold e'. assert (Z.log2 y < e + 53) by (apply Z.log2_lt_pow2; lia). lia. }
    replace y with (q * 2 ^ (e - e') * Double.ulp y) at 1 3.
    + apply nearest_of_multiple, ulp_pos.
    + rewrite Hu', <- Z.mul_assoc, <- Z.pow_add_r by lia.
      replace (e - e' + e') with e by lia. rewrite <- Hu. symmetry. exact Hq.
Qed.

Lemma round_idempotent x : Double.round (Double.round x) = Double.round x.
Proof.
  destruct (Z_le_gt_dec 0 x) as [Hx|Hx]; [apply round_nonneg_idempotent, Hx|].
  assert (Hz : 0 <= - x) by lia. revert Hz.
  replace x with (- - x) at 2 3 by lia. generalize (- x). intros z Hz.
  rewrite !round_opp, round_nonneg_idempotent by exact Hz. reflexivity.
Qed.

(** The sum of a number and an integer is a number. *)
Lemma add_is_double a b :
  Double.is_double a = true -> Double.is_double (Double.add a b) = true.
Proof.
  intros Ha. unfold Double.add. rewrite Ha. unfold Double.is_double.
  apply Z.eqb_eq, round_idempotent.
Qed.

#[local] Instance stays_double_preorder : PreOrder stays_double.
Proof.
  split.
  - intros x Hx. exact Hx.
  - intros x y z Hxy Hyz Hx. exact (Hyz (Hxy Hx)).
Qed.

Lemma number_validate env data :
  preserves stays_double (validateClientCommandIntegrity env data).
Proof.
  intros st. unfold validateClientCommandIntegrity. unfold mbind, M_bind, bind, read.
  destruct (search _ _ _ _ _) as [k|md] eqn:Hs.
  - cbn [final update ret this packetCounter set_packetCounter].
    apply search_matched in Hs as (j & _ & -> & _).
    intros Hd. apply add_is_double, Hd.
  - assert (Hfail : preserves stays_double
              (emit (ConsoleError [Js.lit "Could not match packet Id for " ++ md]);;
               destroy env;; ret false)).
    { pose proof (preserves_destroy stays_double env). preserves_auto. }
    exact (Hfail st).
Qed.

Lemma number_getObjectFromRaw env data :
  preserves stays_double (getObjectFromRaw env data).
Proof.
  unfold getObjectFromRaw. cbv zeta. pose proof number_validate. preserves_auto.
Qed.

Lemma number_on_data env data : preserves stays_double (on_data env data).
Proof.
  unfold on_data. pose proof number_getObjectFromRaw.
  pose proof (preserves_forEach_handler stays_double).
  repeat first
    [ apply preserves_update; try exact _;
      intros ?; cbn [packetCounter set_packetCounter]; intros Hd;
      apply add_is_double, Hd
    | preserves_step ].
Qed.

Lemma number_step env op st :
  stays_double (packetCounter (this st)) (packetCounter (this (step env op st))).
Proof.
  destruct op; cbn [step].
  - apply number_on_data.
  - apply (preserves_send stays_double).
  - apply (preserves_directSend stays_double).
  - apply (preserves_batchSend stays_double).
  - apply (preserves_set stays_double).
  - apply (preserves_get stays_double).
  - apply (preserves_on stays_double).
  - apply (preserves_onData stays_double).
  - apply (preserves_setTickMode stays_double).
  - apply (preserves_tick stays_double).
  - apply number_getObjectFromRaw.
  - apply number_validate.
  - apply (preserves_destroy stays_double).
Qed.

(** After any sequence of operations on a constructed connection, the
    counter is a number of the platform: an integer that is a double,
    which the sums of the validator and of the listener keep it, by
    rounding, from 2^53 on. *)
Theorem packetCounter_is_always_a_number env sock uniqueId now ops :
  Double.is_double
    (packetCounter (this (run env ops (final (constructor env sock uniqueId now)))))
  = true.
Proof.
  assert (Hrun : forall ops st,
            stays_double (packetCounter (this st))
                         (packetCounter (this (run env ops st)))).
  { clear ops. induction ops as [|op ops IH]; intros st; cbn [run].
    - intros Hd. exact Hd.
    - intros Hd. apply IH, (number_step env op st), Hd. }
  apply Hrun. rewrite constructor_counter. reflexivity.
Qed.

End Numbers.
